(** * Deployment server actions: a shallow embedding

    Source: [src/server/actions/deployment-actions.ts].

    The server actions are asynchronous functions over three ambient
    collaborators: the session ([auth()]), the database handle ([db]) and the
    clock ([new Date()]).  They are embedded as computations in a state and
    exception monad over a [World] (the [deployments] table, the view
    invalidation signals, the console and the detached deployment tasks),
    parameterised by an [Env] that fixes what the collaborators answer during
    one call. *)

From Stdlib Require Import List String Ascii ZArith Bool Arith Lia.
From Stdlib Require Import Permutation Sorted.
From Stdlib.Strings Require Byte.
Import ListNotations.

Local Open Scope string_scope.

(* ================================================================== *)
(** ** Data model *)

(** Modelled from the spec: the [status] column of the [deployments] table
    ([@/server/db/schema] is not part of the sources); the data model lists
    [deploying | completed | failed]. *)
Inductive Status : Set := deploying | completed | failed.

Definition Status_eqb (a b : Status) : bool :=
  match a, b with
  | deploying, deploying | completed, completed | failed, failed => true
  | _, _ => false
  end.

(** Modelled from the spec: a row of the [deployments] table (type
    [Deployment] of [@/server/db/schema], which is not part of the sources).
    The columns are those of the spec's data model, which are also the ones
    the actions read and write.  The source passes ids as strings generated
    by the table; here the table numbers its rows from a counter, so that
    every id a caller can pass is well-formed and a fresh one is always at
    hand.  Nullable text columns are [option string], timestamps are
    milliseconds. *)
Record Deployment : Set := mkDeployment {
  id : nat;
  userId : string;
  projectName : string;
  description : option string;
  githubRepoUrl : option string;
  githubRepoName : option string;
  vercelProjectUrl : option string;
  vercelDeploymentUrl : option string;
  status : Status;
  error : option string;
  createdAt : Z;
  updatedAt : Z
}.

(** Modelled from the spec: the values of an insert, [Omit<NewDeployment,
    "id" | "createdAt" | "updatedAt">], with the columns of [Deployment]. *)
Record NewDeployment : Set := mkNewDeployment {
  n_userId : string;
  n_projectName : string;
  n_description : option string;
  n_githubRepoUrl : option string;
  n_githubRepoName : option string;
  n_vercelProjectUrl : option string;
  n_vercelDeploymentUrl : option string;
  n_status : Status;
  n_error : option string
}.

(** The argument of [createDeployment]: the insert values without [userId]. *)
Record DeploymentData : Set := mkDeploymentData {
  c_projectName : string;
  c_description : option string;
  c_githubRepoUrl : option string;
  c_githubRepoName : option string;
  c_vercelProjectUrl : option string;
  c_vercelDeploymentUrl : option string;
  c_status : Status;
  c_error : option string
}.

(** The argument of [updateDeployment]:
    [Partial<Omit<Deployment, "id" | "userId" | "createdAt">>].  [None] is an
    absent key; for a nullable column [Some None] writes [null]. *)
Record Patch : Set := mkPatch {
  p_projectName : option string;
  p_description : option (option string);
  p_githubRepoUrl : option (option string);
  p_githubRepoName : option (option string);
  p_vercelProjectUrl : option (option string);
  p_vercelDeploymentUrl : option (option string);
  p_status : option Status;
  p_error : option (option string);
  p_updatedAt : option Z
}.

Definition empty_patch : Patch :=
  mkPatch None None None None None None None None None.

(** A JavaScript value that is thrown: an [Error] instance with its
    [message], or anything else. *)
Inductive Thrown : Set :=
| JsError (message : string)
| JsOther.

(** [error instanceof Error ? error.message : fallback] *)
Definition message_or (e : Thrown) (fallback : string) : string :=
  match e with
  | JsError m => m
  | JsOther => fallback
  end.

(** What [formData.get] hands back. *)
Inductive FormValue : Set :=
| FormNull
| FormString (s : string)
| FormFile.

Definition FormData : Set := list (string * FormValue).

Fixpoint formData_get (fd : FormData) (key : string) : FormValue :=
  match fd with
  | [] => FormNull
  | (k, v) :: rest => if String.eqb k key then v else formData_get rest key
  end.

(** Modelled from the spec: the answer of [validateProjectName],
    [{isValid, error?}]. *)
Record Validation : Set := mkValidation {
  isValid : bool;
  v_error : option string
}.

Record DeploymentResultData : Set := mkResultData {
  githubRepo : option string;
  vercelProject : option string
}.

(** [DeploymentResult], declared in [./deploy-private-repo] (not part of the
    sources): the keys are those of the three object literals that
    [initiateDeployment] returns. *)
Record DeploymentResult : Set := mkResult {
  success : bool;
  r_message : option string;
  r_error : option string;
  r_data : option DeploymentResultData
}.

(** The argument of [deployPrivateRepository]; a detached task waits on each
    one. *)
Record Job : Set := mkJob {
  templateRepo : string;
  j_projectName : string;
  j_description : string;
  deploymentId : nat
}.

Inductive LogLine : Set :=
| ConsoleLog (text : string)
| ConsoleError (text : string) (detail : Thrown).

(** Statements that reached the database. *)
Inductive Stmt : Set :=
| SqlSelect
| SqlInsert (nrows : nat)
| SqlUpdate
| SqlDelete.

(* ================================================================== *)
(** ** The world and the environment *)

Record World : Set := mkWorld {
  rows : list Deployment;        (* the deployments table *)
  next_id : nat;                 (* source of fresh row ids *)
  revalidated : list string;     (* revalidatePath calls, oldest first *)
  console : list LogLine;        (* console output, oldest first *)
  jobs : list Job;               (* detached tasks awaiting their job *)
  stmts : list Stmt              (* statements executed, oldest first *)
}.

Definition empty_world : World := mkWorld [] 0 [] [] [] [].

Definition set_rows (rs : list Deployment) (w : World) : World :=
  mkWorld rs (next_id w) (revalidated w) (console w) (jobs w) (stmts w).

Definition set_next_id (n : nat) (w : World) : World :=
  mkWorld (rows w) n (revalidated w) (console w) (jobs w) (stmts w).

Definition set_jobs (js : list Job) (w : World) : World :=
  mkWorld (rows w) (next_id w) (revalidated w) (console w) js (stmts w).

Definition add_revalidated (p : string) (w : World) : World :=
  mkWorld (rows w) (next_id w) (revalidated w ++ [p]) (console w) (jobs w)
          (stmts w).

Definition add_console (l : LogLine) (w : World) : World :=
  mkWorld (rows w) (next_id w) (revalidated w) (console w ++ [l]) (jobs w)
          (stmts w).

Definition add_stmt (s : Stmt) (w : World) : World :=
  mkWorld (rows w) (next_id w) (revalidated w) (console w) (jobs w)
          (stmts w ++ [s]).

(** What the ambient collaborators answer during one call. *)
Record Env : Set := mkEnv {
  session : option string;       (* session?.user?.id *)
  db : bool;                     (* is the [db] handle defined *)
  now : Z;                       (* new Date() *)
  fault_select : option Thrown;  (* a select rejects with this *)
  fault_insert : option Thrown;
  fault_update : option Thrown;
  fault_delete : option Thrown
}.

(** [session?.user?.id] as a truthy value: a missing session, a missing id
    and the empty string all fail the guard [!session?.user?.id]. *)
Definition auth (env : Env) : option string :=
  match session env with
  | Some u => if String.eqb u "" then None else Some u
  | None => None
  end.

(* ================================================================== *)
(** ** Computations: state and exceptions *)

Inductive Completion (A : Type) : Type :=
| Return (a : A)
| Throw (e : Thrown).
Arguments Return {A} a.
Arguments Throw {A} e.

Definition M (A : Type) : Type := World -> Completion A * World.

Definition ret {A} (a : A) : M A := fun w => (Return a, w).

Definition throw {A} (e : Thrown) : M A := fun w => (Throw e, w).

Definition bind {A B} (c : M A) (k : A -> M B) : M B :=
  fun w =>
    match c w with
    | (Return a, w') => k a w'
    | (Throw e, w') => (Throw e, w')
    end.

(** [try { body } catch (e) { handler }] *)
Definition try_catch {A} (body : M A) (handler : Thrown -> M A) : M A :=
  fun w =>
    match body w with
    | (Return a, w') => (Return a, w')
    | (Throw e, w') => handler e w'
    end.

Declare Scope action_scope.
Delimit Scope action_scope with action.
Notation "x <- c ;; k" := (bind c (fun x => k))
  (at level 61, c at next level, right associativity) : action_scope.
Notation "c ;;; k" := (bind c (fun _ => k))
  (at level 61, right associativity) : action_scope.
Local Open Scope action_scope.

Definition console_log (text : string) : M unit :=
  fun w => (Return tt, add_console (ConsoleLog text) w).

Definition console_error (text : string) (detail : Thrown) : M unit :=
  fun w => (Return tt, add_console (ConsoleError text detail) w).

Definition revalidatePath (path : string) : M unit :=
  fun w => (Return tt, add_revalidated path w).

(* ================================================================== *)
(** ** The database: one statement at a time *)

(** [.orderBy(desc(deployments.createdAt))]: a stable insertion sort, newest
    first. *)
Fixpoint insert_desc (r : Deployment) (l : list Deployment)
  : list Deployment :=
  match l with
  | [] => [r]
  | x :: l' =>
      if (createdAt x <=? createdAt r)%Z then r :: l
      else x :: insert_desc r l'
  end.

Definition order_by_createdAt_desc (l : list Deployment) : list Deployment :=
  fold_right insert_desc [] l.

(** [.limit(n)] when present. *)
Definition limit (n : option nat) (l : list Deployment) : list Deployment :=
  match n with
  | Some k => firstn k l
  | None => l
  end.

(** [db.select().from(deployments).where(cond)] followed by the optional
    [.orderBy(desc(createdAt))] and [.limit(n)]. *)
Definition db_select (env : Env) (cond : Deployment -> bool)
    (newest_first : bool) (n : option nat) : M (list Deployment) :=
  fun w =>
    match fault_select env with
    | Some e => (Throw e, w)
    | None =>
        let hits := filter cond (rows w) in
        let sorted :=
          if newest_first then order_by_createdAt_desc hits else hits in
        (Return (limit n sorted), add_stmt SqlSelect w)
    end.

(** The row an insert creates: the id is fresh, both timestamps default to
    the time of the statement. *)
Definition new_row (env : Env) (i : nat) (v : NewDeployment) : Deployment :=
  mkDeployment i (n_userId v) (n_projectName v) (n_description v)
    (n_githubRepoUrl v) (n_githubRepoName v) (n_vercelProjectUrl v)
    (n_vercelDeploymentUrl v) (n_status v) (n_error v) (now env) (now env).

Fixpoint number_rows (env : Env) (i : nat) (vs : list NewDeployment)
  : list Deployment :=
  match vs with
  | [] => []
  | v :: vs' => new_row env i v :: number_rows env (S i) vs'
  end.

(** [db.insert(deployments).values(vs).returning()]: one statement; either
    every row is written or the statement rejects and none is. *)
Definition db_insert (env : Env) (vs : list NewDeployment)
  : M (list Deployment) :=
  fun w =>
    match fault_insert env with
    | Some e => (Throw e, w)
    | None =>
        let created := number_rows env (next_id w) vs in
        (Return created,
         add_stmt (SqlInsert (List.length vs))
           (set_next_id (next_id w + List.length vs)
              (set_rows (rows w ++ created) w)))
    end.

(** [db.transaction(async (tx) => body)]: a rejected body rolls the table
    back. *)
Definition db_transaction {A} (body : M A) : M A :=
  fun w =>
    match body w with
    | (Return a, w') => (Return a, w')
    | (Throw e, w') => (Throw e, set_rows (rows w) w')
    end.

(** [.set({...data, updatedAt: new Date()})]: keys of the patch overwrite the
    column, [updatedAt] is always the time of the call. *)
Definition apply_patch (data : Patch) (t : Z) (r : Deployment) : Deployment :=
  let pick {A} (p : option A) (old : A) : A :=
    match p with Some v => v | None => old end in
  mkDeployment (id r) (userId r)
    (pick (p_projectName data) (projectName r))
    (pick (p_description data) (description r))
    (pick (p_githubRepoUrl data) (githubRepoUrl r))
    (pick (p_githubRepoName data) (githubRepoName r))
    (pick (p_vercelProjectUrl data) (vercelProjectUrl r))
    (pick (p_vercelDeploymentUrl data) (vercelDeploymentUrl r))
    (pick (p_status data) (status r))
    (pick (p_error data) (error r))
    (createdAt r) t.

(** [db.update(deployments).set(f).where(cond).returning()] *)
Definition db_update (env : Env) (cond : Deployment -> bool)
    (f : Deployment -> Deployment) : M (list Deployment) :=
  fun w =>
    match fault_update env with
    | Some e => (Throw e, w)
    | None =>
        (Return (map f (filter cond (rows w))),
         add_stmt SqlUpdate
           (set_rows (map (fun r => if cond r then f r else r) (rows w)) w))
    end.

(** [db.delete(deployments).where(cond)]; the result carries the number of
    rows removed. *)
Definition db_delete (env : Env) (cond : Deployment -> bool) : M nat :=
  fun w =>
    match fault_delete env with
    | Some e => (Throw e, w)
    | None =>
        (Return (List.length (filter cond (rows w))),
         add_stmt SqlDelete
           (set_rows (filter (fun r => negb (cond r)) (rows w)) w))
    end.

(** [and(eq(deployments.id, i), eq(deployments.userId, uid))] *)
Definition owned_by (i : nat) (uid : string) (r : Deployment) : bool :=
  Nat.eqb (id r) i && String.eqb (userId r) uid.

(** [eq(deployments.userId, uid)] *)
Definition of_user (uid : string) (r : Deployment) : bool :=
  String.eqb (userId r) uid.

(* ================================================================== *)
(** ** The server actions *)

(** [getUserDeployments] *)
Definition getUserDeployments (env : Env) : M (list Deployment) :=
  match auth env with
  | None => throw (JsError "Unauthorized")
  | Some uid =>
      if negb (db env) then throw (JsError "Database not available")
      else
        try_catch
          (userDeployments <- db_select env (of_user uid) true None ;;
           ret userDeployments)
          (fun e =>
             console_error "Failed to fetch deployments:" e ;;;
             throw (JsError "Failed to fetch deployments"))
  end.

Definition with_user (data : DeploymentData) (uid : string) : NewDeployment :=
  mkNewDeployment uid (c_projectName data) (c_description data)
    (c_githubRepoUrl data) (c_githubRepoName data) (c_vercelProjectUrl data)
    (c_vercelDeploymentUrl data) (c_status data) (c_error data).

(** [createDeployment] *)
Definition createDeployment (env : Env) (data : DeploymentData)
  : M Deployment :=
  match auth env with
  | None => throw (JsError "Unauthorized")
  | Some uid =>
      if negb (db env) then throw (JsError "Database not available")
      else
        try_catch
          (result <- db_transaction
                       (inserted <- db_insert env [with_user data uid] ;;
                        ret (hd_error inserted)) ;;
           revalidatePath "/deployments" ;;;
           match result with
           | None =>
               throw
                 (JsError "Failed to create deployment: no result returned")
           | Some r => ret r
           end)
          (fun e =>
             console_error "Failed to create deployment:" e ;;;
             throw (JsError "Failed to create deployment"))
  end.

(** [updateDeployment] *)
Definition updateDeployment (env : Env) (i : nat) (data : Patch)
  : M (option Deployment) :=
  match auth env with
  | None => throw (JsError "Unauthorized")
  | Some uid =>
      if negb (db env) then throw (JsError "Database not available")
      else
        try_catch
          (updated <- db_update env (owned_by i uid)
                        (apply_patch data (now env)) ;;
           match hd_error updated with
           | Some updatedDeployment =>
               revalidatePath "/deployments" ;;;
               ret (Some updatedDeployment)
           | None => ret None
           end)
          (fun e =>
             console_error "Failed to update deployment:" e ;;;
             throw (JsError "Failed to update deployment"))
  end.

(** [deleteDeployment] *)
Definition deleteDeployment (env : Env) (i : nat) : M bool :=
  match auth env with
  | None => throw (JsError "Unauthorized")
  | Some uid =>
      if negb (db env) then throw (JsError "Database not available")
      else
        try_catch
          (result <- db_delete env (owned_by i uid) ;;
           revalidatePath "/deployments" ;;;
           ret true)
          (fun e =>
             console_error "Failed to delete deployment:" e ;;;
             throw (JsError "Failed to delete deployment"))
  end.

(** The literal [demoDeployments] of [initializeDemoDeployments]. *)
Definition demoDeployments (uid : string) : list NewDeployment :=
  [ mkNewDeployment uid "my-shipkit-app" (Some "Production deployment")
      (Some "https://github.com/demo/my-shipkit-app")
      (Some "demo/my-shipkit-app")
      (Some "https://vercel.com/demo/my-shipkit-app")
      (Some "https://my-shipkit-app.vercel.app")
      completed None;
    mkNewDeployment uid "shipkit-staging" (Some "Staging environment")
      (Some "https://github.com/demo/shipkit-staging")
      (Some "demo/shipkit-staging")
      (Some "https://vercel.com/demo/shipkit-staging")
      (Some "https://shipkit-staging.vercel.app")
      completed None;
    mkNewDeployment uid "shipkit-dev" (Some "Development environment")
      None None None None
      failed (Some "Build failed: Module not found") ].

(** [initializeDemoDeployments] *)
Definition initializeDemoDeployments (env : Env) : M unit :=
  match auth env with
  | None => throw (JsError "Unauthorized")
  | Some uid =>
      if negb (db env) then throw (JsError "Database not available")
      else
        try_catch
          (existingDeployments <- db_select env (of_user uid) false (Some 1) ;;
           if Nat.ltb 0 (List.length existingDeployments) then ret tt
           else
             _ <- db_insert env (demoDeployments uid) ;;
             ret tt)
          (fun e => console_error "Failed to initialize demo deployments:" e)
  end.

(* ================================================================== *)
(** ** The lifecycle controller *)

(** [String.prototype.trim] on the strings of this model, which hold the
    UTF-8 bytes of a well-formed JavaScript string.  The code points that
    ECMAScript strips are its WhiteSpace and LineTerminator productions:
    U+0009 to U+000D, U+0020, U+00A0, U+1680, U+2000 to U+200A, U+2028,
    U+2029, U+202F, U+205F, U+3000 and U+FEFF, listed here by their
    bytes. *)
Definition white_space_bytes : list (list nat) :=
  [ [9]; [10]; [11]; [12]; [13]; [32];
    [194; 160];
    [225; 154; 128];
    [226; 128; 128]; [226; 128; 129]; [226; 128; 130]; [226; 128; 131];
    [226; 128; 132]; [226; 128; 133]; [226; 128; 134]; [226; 128; 135];
    [226; 128; 136]; [226; 128; 137]; [226; 128; 138];
    [226; 128; 168]; [226; 128; 169];
    [226; 128; 175];
    [226; 129; 159];
    [227; 128; 128];
    [239; 187; 191] ].

Definition white_space : list string :=
  map (fun bytes => string_of_list_ascii (map ascii_of_nat bytes))
    white_space_bytes.

Definition reverse (s : string) : string :=
  string_of_list_ascii (List.rev (list_ascii_of_string s)).

(** [s] without its prefix [p], when it starts with [p]. *)
Fixpoint strip_prefix (p s : string) : option string :=
  match p, s with
  | EmptyString, _ => Some s
  | String a p', String b s' =>
      if Ascii.eqb a b then strip_prefix p' s' else None
  | String _ _, EmptyString => None
  end.

(** [s] without one leading occurrence of one of [pats]. *)
Fixpoint strip_any (pats : list string) (s : string) : option string :=
  match pats with
  | [] => None
  | p :: ps =>
      match strip_prefix p s with
      | Some rest => Some rest
      | None => strip_any ps s
      end
  end.

(** [s] without every leading occurrence of [pats]; [fuel] bounds the
    number of occurrences, the length of [s] is enough. *)
Fixpoint strip_all (fuel : nat) (pats : list string) (s : string) : string :=
  match fuel with
  | O => s
  | S fuel' =>
      match strip_any pats s with
      | Some rest => strip_all fuel' pats rest
      | None => s
      end
  end.

Definition trim_start (s : string) : string :=
  strip_all (String.length s) white_space s.

Definition trim_end (s : string) : string :=
  reverse
    (strip_all (String.length s) (map reverse white_space) (reverse s)).

Definition trim (s : string) : string := trim_end (trim_start s).

(** [void (async () => { ... })()]: the task runs up to its first [await],
    on the promise of [deployPrivateRepository], and stays behind. *)
Definition spawn (j : Job) : M unit :=
  fun w => (Return tt, set_jobs (jobs w ++ [j]) w).

(** The promise a detached task awaits settles. *)
Definition await {A} (outcome : Completion A) : M A :=
  fun w => (outcome, w).

Definition remove_nth {A} (n : nat) (l : list A) : list A :=
  firstn n l ++ skipn (S n) l.

(** What the callers of the actions can do to the world. *)
Inductive Op : Type :=
| Initiate (formData : FormData)
| Settle (n : nat) (outcome : Completion DeploymentResult)
| ListOwn
| Update (i : nat) (data : Patch)
| Delete (i : nat)
| Seed.

Section Controller.

(** [validateProjectName] of [@/lib/schemas/deployment] and the
    [siteConfig] behind [SHIPKIT_REPO] are not part of the sources. *)
Variable validateProjectName : FormValue -> Validation.
Variable SHIPKIT_REPO : string.

(** The body of the detached task of [initiateDeployment], from the moment
    the promise of [deployPrivateRepository] settles with [outcome]. *)
Definition deployment_task (env : Env) (j : Job)
    (outcome : Completion DeploymentResult) : M unit :=
  let sanitizedProjectName := j_projectName j in
  try_catch
    (_ <- await outcome ;;
     console_log
       ("Deployment process completed for " ++ sanitizedProjectName))
    (fun error =>
       console_error
         ("Deployment failed for " ++ sanitizedProjectName ++ ":") error ;;;
       try_catch
         (_ <- updateDeployment env (deploymentId j)
                 (mkPatch None None None None None None (Some failed)
                    (Some (Some (message_or error
                                   "An unknown error occurred")))
                    None) ;;
          ret tt)
         (fun updateError =>
            console_error
              ("Failed to update deployment status for "
                 ++ sanitizedProjectName ++ ":")
              updateError)).

(** [initiateDeployment] *)
Definition initiateDeployment (env : Env) (formData : FormData)
  : M DeploymentResult :=
  let projectName := formData_get formData "projectName" in
  let validation := validateProjectName projectName in
  if negb (isValid validation) then
    ret (mkResult false None (v_error validation) None)
  else
    match projectName with
    | FormString s =>
        let sanitizedProjectName := trim s in
        let description := "Deployment of " ++ sanitizedProjectName in
        try_catch
          (newDeployment <-
             createDeployment env
               (mkDeploymentData sanitizedProjectName (Some description)
                  None None None None deploying None) ;;
           spawn (mkJob SHIPKIT_REPO sanitizedProjectName description
                    (id newDeployment)) ;;;
           ret (mkResult true
                  (Some "Deployment initiated successfully! You can monitor the progress on this page.")
                  None
                  (Some (mkResultData None None))))
          (fun error =>
             console_error
               ("Failed to create deployment record for "
                  ++ sanitizedProjectName ++ ":")
               error ;;;
             ret (mkResult false None
                    (Some (message_or error
                             "Failed to create deployment record"))
                    None))
    | FormNull =>
        throw (JsError "Cannot read properties of null (reading 'trim')")
    | FormFile => throw (JsError "projectName.trim is not a function")
    end.

(** One call, or one settled job, seen from the world. *)
Definition step (env : Env) (op : Op) (w : World) : World :=
  match op with
  | Initiate formData => snd (initiateDeployment env formData w)
  | Settle n outcome =>
      match nth_error (jobs w) n with
      | Some j =>
          snd (deployment_task env j outcome
                 (set_jobs (remove_nth n (jobs w)) w))
      | None => w
      end
  | ListOwn => snd (getUserDeployments env w)
  | Update i data => snd (updateDeployment env i data w)
  | Delete i => snd (deleteDeployment env i w)
  | Seed => snd (initializeDemoDeployments env w)
  end.

Fixpoint run (trace : list (Env * Op)) (w : World) : World :=
  match trace with
  | [] => w
  | (env, op) :: rest => run rest (step env op w)
  end.

Definition reachable (w : World) : Prop :=
  exists trace, run trace empty_world = w.

End Controller.

(** Modelled from the spec: [validateProjectName] is not part of the
    sources; the spec asks for a name that is non-empty after trimming and
    matches an allowed character set and length.  The letters, digits,
    hyphen and underscore and the bound of 100 are this instance's own: it
    only serves to run the controller on concrete inputs, the theorems hold
    for every validator. *)
Definition allowed_char (c : ascii) : bool :=
  let n := nat_of_ascii c in
  (Nat.leb 48 n && Nat.leb n 57) || (Nat.leb 65 n && Nat.leb n 90)
  || (Nat.leb 97 n && Nat.leb n 122) || Nat.eqb n 45 || Nat.eqb n 95.

Definition sampleValidateProjectName (v : FormValue) : Validation :=
  match v with
  | FormString s =>
      let t := trim s in
      if Nat.eqb (String.length t) 0 then
        mkValidation false (Some "Project name is required")
      else if Nat.ltb 100 (String.length t) then
        mkValidation false (Some "Project name is too long")
      else if forallb allowed_char (list_ascii_of_string t) then
        mkValidation true None
      else
        mkValidation false (Some "Project name has invalid characters")
  | _ => mkValidation false (Some "Project name is required")
  end.

Definition sampleRepo : string := "shipkit/shipkit".

(** Environments used to run the actions on concrete inputs. *)
Definition env_of (u : string) (t : Z) : Env :=
  mkEnv (Some u) true t None None None None.

Definition env_anonymous (t : Z) : Env :=
  mkEnv None true t None None None None.

(** Records counted per owner and per id. *)
Definition count_of_user (uid : string) (w : World) : nat :=
  List.length (filter (of_user uid) (rows w)).

Definition find_row (i : nat) (w : World) : option Deployment :=
  find (fun r => Nat.eqb (id r) i) (rows w).

Definition status_of (i : nat) (w : World) : option Status :=
  option_map status (find_row i w).

(** Worlds used to run the actions on concrete inputs: [alice] after her
    first visit, and after she started the deployment of [my-app]. *)
Definition seeded_alice : World :=
  snd (initializeDemoDeployments (env_of "alice" 5) empty_world).

Definition my_app_form : FormData := [("projectName", FormString "my-app")].

Definition my_app_started : World :=
  snd (initiateDeployment sampleValidateProjectName sampleRepo
         (env_of "alice" 10) my_app_form empty_world).

(** Patches and environments of the worked examples. *)
Definition clear_description : Patch :=
  mkPatch None (Some None) None None None None None None None.


Definition error_only : Patch :=
  mkPatch None None None None None None None (Some (Some "oops")) None.

Definition env_insert_down : Env :=
  mkEnv (Some "alice") true 5 None (Some (JsError "connection lost"))
    None None.

Definition blank_form : FormData := [("projectName", FormString "   ")].

Definition my_app_row : Deployment :=
  mkDeployment 0 "alice" "my-app" (Some "Deployment of my-app") None None
    None None deploying None 10 10.

Definition my_app_job : Job :=
  mkJob sampleRepo "my-app" "Deployment of my-app" 0.

Definition build_failed : Thrown := JsError "Build failed".

(** Alice visits, starts [my-app], and the job throws. *)
Definition build_failed_trace : list (Env * Op) :=
  [ (env_of "alice" 5, Seed);
    (env_of "alice" 10, Initiate my_app_form);
    (env_of "alice" 12, Settle 0 (Throw build_failed)) ].

(** Alice visits, then writes an error text on her first, completed
    record. *)
Definition error_only_trace : list (Env * Op) :=
  [ (env_of "alice" 5, Seed);
    (env_of "alice" 7, Update 0 error_only) ].

(* ================================================================== *)
(** ** Specification vocabulary *)

(** How a store action throws [e], leaving the world [w']: with
    [Unauthorized] when there is no principal, with [Database not
    available] when there is no handle, both without a word on the console;
    or with its own message [generic] after the statement rejected with
    some [cause], which is then the last line of the console under
    [label]. *)
Definition throws_own_error (env : Env) (w w' : World)
    (fault : option Thrown) (label generic : string) (e : Thrown) : Prop :=
  (e = JsError "Unauthorized" /\ auth env = None /\
   console w' = console w) \/
  (e = JsError "Database not available" /\ db env = false /\
   console w' = console w) \/
  (e = JsError generic /\
   exists cause,
     fault = Some cause /\
     console w' = (console w ++ [ConsoleError label cause])%list).

(** A text made of occurrences of [pats] only. *)
Inductive white_run (pats : list string) : string -> Prop :=
| white_run_nil : white_run pats ""
| white_run_cons (p rest : string) :
    In p pats -> white_run pats rest -> white_run pats (p ++ rest).

(** A text with no white space at either end. *)
Definition trimmed (s : string) : Prop :=
  strip_any white_space s = None /\
  strip_any (map reverse white_space) (reverse s) = None.


(** [error] is set to a non-empty text. *)
Definition has_error (r : Deployment) : bool :=
  match error r with
  | Some m => negb (String.eqb m "")
  | None => false
  end.

Definition error_iff_failed (r : Deployment) : Prop :=
  has_error r = true <-> status r = failed.

(** Ids are unique and below the counter. *)
Definition store_ok (w : World) : Prop :=
  NoDup (map id (rows w)) /\ Forall (fun r => id r < next_id w) (rows w).

(** [r'] is [r] with the keys of [data] written and [updatedAt] set to [t]:
    the words of the store contract, column by column. *)
Definition patched (data : Patch) (t : Z) (r r' : Deployment) : Prop :=
  id r' = id r /\ userId r' = userId r /\ createdAt r' = createdAt r /\
  updatedAt r' = t /\
  (forall v, p_projectName data = Some v -> projectName r' = v) /\
  (p_projectName data = None -> projectName r' = projectName r) /\
  (forall v, p_description data = Some v -> description r' = v) /\
  (p_description data = None -> description r' = description r) /\
  (forall v, p_githubRepoUrl data = Some v -> githubRepoUrl r' = v) /\
  (p_githubRepoUrl data = None -> githubRepoUrl r' = githubRepoUrl r) /\
  (forall v, p_githubRepoName data = Some v -> githubRepoName r' = v) /\
  (p_githubRepoName data = None -> githubRepoName r' = githubRepoName r) /\
  (forall v, p_vercelProjectUrl data = Some v -> vercelProjectUrl r' = v) /\
  (p_vercelProjectUrl data = None ->
   vercelProjectUrl r' = vercelProjectUrl r) /\
  (forall v, p_vercelDeploymentUrl data = Some v ->
             vercelDeploymentUrl r' = v) /\
  (p_vercelDeploymentUrl data = None ->
   vercelDeploymentUrl r' = vercelDeploymentUrl r) /\
  (forall v, p_status data = Some v -> status r' = v) /\
  (p_status data = None -> status r' = status r) /\
  (forall v, p_error data = Some v -> error r' = v) /\
  (p_error data = None -> error r' = error r).

(** A patch that writes [status] and [error] together, or neither. *)
Definition coherent (data : Patch) : Prop :=
  match p_status data, p_error data with
  | None, None => True
  | Some failed, Some (Some m) => m <> ""
  | Some deploying, Some None => True
  | Some completed, Some None => True
  | _, _ => False
  end.

Definition keeps_error_rule (op : Op) : Prop :=
  match op with
  | Update _ data => coherent data
  | Settle _ (Throw e) => message_or e "An unknown error occurred" <> ""
  | _ => True
  end.

(** The order of a listing: [a] may stand before [b]. *)
Definition newer_first (a b : Deployment) : Prop :=
  (createdAt b <= createdAt a)%Z.

(** The reconciliation patch of the detached task. *)
Definition failure_patch (e : Thrown) : Patch :=
  mkPatch None None None None None None (Some failed)
    (Some (Some (message_or e "An unknown error occurred"))) None.

(** The patch an operation writes to the rows with id [i]: the argument of
    an [Update], or the reconciliation patch of a task whose job threw. *)
Definition writes (op : Op) (w : World) (i : nat) (data : Patch) : Prop :=
  op = Update i data \/
  exists n j e,
    op = Settle n (Throw e) /\ nth_error (jobs w) n = Some j /\
    deploymentId j = i /\ data = failure_patch e.

(** The insert values carry an [error] text exactly when they say
    [failed]. *)
Definition new_error_iff_failed (v : NewDeployment) : Prop :=
  n_status v = failed <-> exists m, n_error v = Some m /\ m <> "".

(** What one operation can do to the table. *)
Inductive Effect (env : Env) (op : Op) (w w' : World) : Prop :=
| Untouched :
    rows w' = rows w -> next_id w' = next_id w -> Effect env op w w'
| Inserted (vs : list NewDeployment) :
    rows w' = (rows w ++ number_rows env (next_id w) vs)%list ->
    next_id w' = next_id w + List.length vs ->
    Forall new_error_iff_failed vs ->
    Effect env op w w'
| Rewritten (i : nat) (uid : string) (data : Patch) :
    rows w' =
      map (fun r =>
             if owned_by i uid r then apply_patch data (now env) r else r)
          (rows w) ->
    next_id w' = next_id w ->
    auth env = Some uid -> writes op w i data ->
    Effect env op w w'
| Removed (i : nat) (uid : string) :
    rows w' = filter (fun r => negb (owned_by i uid r)) (rows w) ->
    next_id w' = next_id w ->
    Effect env op w w'.

(* ================================================================== *)
(** ** The onboarding wizard and the Vercel connect button

    Sources: [src/components/modules/onboarding/onboarding-wizard.tsx] and
    [src/components/buttons/vercel-connect-button.tsx].  The components are
    embedded by their state updaters and event handlers; what they render
    is left out. *)

(** Modelled from the spec: [User] of [@/types/user], which is not part of
    the sources, with the three properties the two components read.
    [vercelConnectionAttemptedAt] is a date or [null], [accounts] may be
    missing. *)
Record Account : Set := mkAccount { provider : string }.

Record User : Set := mkUser {
  user_id : string;
  vercelConnectionAttemptedAt : option Z;
  accounts : option (list Account)
}.

(** A JS object with boolean values: its keys in insertion order. *)
Definition Flags : Set := list (string * bool).

(** [{...o, [k]: v}] *)
Fixpoint obj_set (k : string) (v : bool) (o : Flags) : Flags :=
  match o with
  | [] => [(k, v)]
  | (k', v') :: o' =>
      if String.eqb k' k then (k, v) :: o' else (k', v') :: obj_set k v o'
  end.

(** [o[k]] *)
Fixpoint obj_get (k : string) (o : Flags) : option bool :=
  match o with
  | [] => None
  | (k', v') :: o' => if String.eqb k' k then Some v' else obj_get k o'
  end.

Module OnboardingWizard.

(** The value kept in local storage. *)
Record OnboardingState : Set := mkState {
  completed : bool;
  currentStep : Z;
  steps : Flags
}.

(** [!!user?.vercelConnectionAttemptedAt || hasVercelConnection] *)
Definition hasVercelConnectionAttempt (user : option User)
    (hasVercelConnection : bool) : bool :=
  match user with
  | Some u =>
      match vercelConnectionAttemptedAt u with
      | Some _ => true
      | None => false
      end
  | None => false
  end || hasVercelConnection.

(** [hasGitHubConnection ? (hasVercelConnectionAttempt ? 2 : 1) : 0] *)
Definition initialStep (hasGitHubConnection attempted : bool) : Z :=
  if hasGitHubConnection then (if attempted then 2 else 1) else 0.

(** The local-storage key, [`onboarding-${user?.id ?? "guest"}`]. *)
Definition storageKey (user : option User) : string :=
  "onboarding-"
    ++ match user with Some u => user_id u | None => "guest" end.

(** The default handed to [useLocalStorage]. *)
Definition initialState (user : option User)
    (hasGitHubConnection hasVercelConnection : bool) : OnboardingState :=
  let attempted := hasVercelConnectionAttempt user hasVercelConnection in
  mkState false (initialStep hasGitHubConnection attempted)
    [("github", hasGitHubConnection); ("vercel", attempted);
     ("deploy", false)].

Definition stepIds : list string := ["github"; "vercel"; "deploy"].

(** The updater of the effect that keeps the connection flags in sync. *)
Definition syncConnections (hasGitHubConnection attempted : bool)
    (prev : OnboardingState) : OnboardingState :=
  mkState (completed prev) (currentStep prev)
    (obj_set "vercel" attempted
       (obj_set "github" hasGitHubConnection (steps prev))).

(** [stepIds[Math.max(0, Math.min(stepIds.length - 1, index))] || ""], for
    an integer [index]. *)
Definition stepKey (index : Z) : string :=
  nth (Z.to_nat (Z.max 0 (Z.min (Z.of_nat (List.length stepIds) - 1) index)))
    stepIds "".

(** The updater of [onStepChange]. *)
Definition onStepChange (index : Z) (prev : OnboardingState)
  : OnboardingState :=
  mkState (completed prev) index (obj_set (stepKey index) true (steps prev)).

(** The updater shared by [handleComplete] and [handleSkip]. *)
Definition markCompleted (prev : OnboardingState) : OnboardingState :=
  mkState true (currentStep prev) (steps prev).

Inductive Notice : Set :=
| Toast (title description : string)
| OnComplete.

(** [handleComplete]; [siteTitle] stands for [siteConfig.title],
    [onComplete] tells whether the prop was given. *)
Definition handleComplete (siteTitle : string) (onComplete : bool)
    (prev : OnboardingState) : OnboardingState * list Notice :=
  (markCompleted prev,
   Toast "Onboarding completed!"
     ("You're all set to start building with " ++ siteTitle ++ ".")
   :: (if onComplete then [OnComplete] else [])).

(** [handleSkip] *)
Definition handleSkip (onComplete : bool) (prev : OnboardingState)
  : OnboardingState * list Notice :=
  (markCompleted prev, if onComplete then [OnComplete] else []).

(** [if (!user || onboardingState.completed) return null]: does the wizard
    show. *)
Definition shown (user : option User) (st : OnboardingState) : bool :=
  match user with
  | Some _ => negb (completed st)
  | None => false
  end.

(** What the component can do to the stored state. *)
Inductive Event : Set :=
| SyncConnections (hasGitHubConnection attempted : bool)
| StepChange (index : Z)
| Complete
| Skip.

Definition update (siteTitle : string) (onComplete : bool) (e : Event)
    (st : OnboardingState) : OnboardingState :=
  match e with
  | SyncConnections g a => syncConnections g a st
  | StepChange index => onStepChange index st
  | Complete => fst (handleComplete siteTitle onComplete st)
  | Skip => fst (handleSkip onComplete st)
  end.

Definition updates (siteTitle : string) (onComplete : bool)
    (events : list Event) (st : OnboardingState) : OnboardingState :=
  fold_left (fun s e => update siteTitle onComplete e s) events st.

End OnboardingWizard.

Module VercelConnectButton.

(** The digit of [n.toString(16)] for [n < 16]. *)
Definition hex_digit (n : nat) : ascii :=
  nth n (list_ascii_of_string "0123456789abcdef") "0"%char.

(** [b.toString(16)] for an element of a [Uint8Array]. *)
Definition toString16 (b : Byte.byte) : string :=
  let n := Byte.to_nat b in
  if Nat.ltb n 16 then String (hex_digit n) ""
  else String (hex_digit (n / 16)) (String (hex_digit (n mod 16)) "").

(** [s.padStart(n, fill)] for a one-character [fill]. *)
Definition padStart (n : nat) (fill : ascii) (s : string) : string :=
  string_of_list_ascii (repeat fill (n - String.length s)) ++ s.

(** [Array.from(random).map((b) => b.toString(16).padStart(2, "0"))
    .join("")] *)
Definition csrf_state (random : list Byte.byte) : string :=
  String.concat "" (map (fun b => padStart 2 "0"%char (toString16 b)) random).

(** The characters [encodeURIComponent] leaves alone. *)
Definition uri_unreserved (c : ascii) : bool :=
  let n := nat_of_ascii c in
  (Nat.leb 48 n && Nat.leb n 57) || (Nat.leb 65 n && Nat.leb n 90)
  || (Nat.leb 97 n && Nat.leb n 122)
  || existsb (Ascii.eqb c) (list_ascii_of_string "-_.!~*'()").

Definition HEX_DIGIT (n : nat) : ascii :=
  nth n (list_ascii_of_string "0123456789ABCDEF") "0"%char.

Definition percent (c : ascii) : string :=
  let n := nat_of_ascii c in
  String "%" (String (HEX_DIGIT (n / 16)) (String (HEX_DIGIT (n mod 16)) "")).

(** [encodeURIComponent] on the UTF-8 bytes of a well-formed string: every
    byte outside the unreserved set becomes [%XX]. *)
Fixpoint encodeURIComponent (s : string) : string :=
  match s with
  | EmptyString => EmptyString
  | String c s' =>
      (if uri_unreserved c then String c "" else percent c)
        ++ encodeURIComponent s'
  end.

(** The value assigned to [document.cookie]. *)
Definition oauth_cookie (state : string) : string :=
  "vercel_oauth_state=" ++ state
    ++ "; path=/; SameSite=Lax; Secure; Max-Age=600".

(** [`${origin}/connect/vercel/auth`] *)
Definition redirectUri (origin : string) : string :=
  origin ++ "/connect/vercel/auth".

(** The address the browser is sent to. *)
Definition link (client_slug state redirect : string) : string :=
  "https://vercel.com/integrations/" ++ client_slug ++ "/new?state=" ++ state
    ++ "&redirect_uri=" ++ encodeURIComponent redirect.

(** [user?.accounts?.some((account) => account.provider === "vercel")],
    coerced with [!!]. *)
Definition hasVercelAccount (user : option User) : bool :=
  match user with
  | Some u =>
      match accounts u with
      | Some l => existsb (fun a => String.eqb (provider a) "vercel") l
      | None => false
      end
  | None => false
  end.

(** The answer of [disconnectAccount]. *)
Record DisconnectResult : Set := mkDisconnectResult {
  d_success : bool;
  d_error : option string;
  d_message : option string
}.

Inductive Shown : Set :=
| ToastError (text : string)
| ToastSuccess (text : option string)
| LegacyToast (title description variant : string).

(** What the handlers of the button act on. *)
Record Page : Set := mkPage {
  isLoading : bool;              (* the React state *)
  toasts : list Shown;           (* oldest first *)
  errors : list LogLine;         (* console output *)
  attempts : nat;                (* markVercelConnectionAttempt calls *)
  disconnects : list string;     (* disconnectAccount calls *)
  sessionUpdates : nat;          (* updateSession calls *)
  cookies : list string;         (* assignments to document.cookie *)
  visited : list string          (* window.location.assign calls *)
}.

Definition setIsLoading (b : bool) (p : Page) : Page :=
  mkPage b (toasts p) (errors p) (attempts p) (disconnects p)
    (sessionUpdates p) (cookies p) (visited p).

Definition show (t : Shown) (p : Page) : Page :=
  mkPage (isLoading p) (toasts p ++ [t]) (errors p) (attempts p)
    (disconnects p) (sessionUpdates p) (cookies p) (visited p).

Definition log_error (l : LogLine) (p : Page) : Page :=
  mkPage (isLoading p) (toasts p) (errors p ++ [l]) (attempts p)
    (disconnects p) (sessionUpdates p) (cookies p) (visited p).

(** [handleConnect].  [marked] is how [markVercelConnectionAttempt]
    settles, [random] what [crypto.getRandomValues] fills in, [origin] is
    [window.location.origin]. *)
Definition handleConnect (client_slug origin : string)
    (marked : Completion unit) (random : list Byte.byte) (p : Page) : Page :=
  let p1 := setIsLoading true p in
  let p2 :=
    mkPage (isLoading p1) (toasts p1) (errors p1) (S (attempts p1))
      (disconnects p1) (sessionUpdates p1) (cookies p1) (visited p1) in
  match marked with
  | Return _ =>
      let state := csrf_state random in
      mkPage (isLoading p2) (toasts p2) (errors p2) (attempts p2)
        (disconnects p2) (sessionUpdates p2)
        (cookies p2 ++ [oauth_cookie state])
        (visited p2 ++ [link client_slug state (redirectUri origin)])
  | Throw error =>
      setIsLoading false
        (show
           (LegacyToast "Error"
              (message_or error "Failed to connect to Vercel") "destructive")
           p2)
  end.

(** [handleDisconnect], as created by a render that saw [isLoading = seen].
    [answered] is how [disconnectAccount("vercel")] settles, [refreshed]
    how [updateSession({ force: true })] does. *)
Definition handleDisconnect (seen : bool)
    (answered : Completion DisconnectResult) (refreshed : Completion unit)
    (p : Page) : Page :=
  if seen then p
  else
    let p1 := setIsLoading true p in
    let p2 :=
      mkPage (isLoading p1) (toasts p1) (errors p1) (attempts p1)
        (disconnects p1 ++ ["vercel"]) (sessionUpdates p1) (cookies p1)
        (visited p1) in
    let unexpected (error : Thrown) (q : Page) : Page :=
      show (ToastError "An unexpected error occurred")
        (log_error (ConsoleError "Disconnect Vercel error:" error) q) in
    let p3 :=
      match answered with
      | Throw error => unexpected error p2
      | Return result =>
          if negb (d_success result) then
            show (ToastError
                    (match d_error result with
                     | Some m => m
                     | None => "Failed to disconnect Vercel account"
                     end))
              p2
          else
            let p' := show (ToastSuccess (d_message result)) p2 in
            let p'' :=
              mkPage (isLoading p') (toasts p') (errors p') (attempts p')
                (disconnects p') (S (sessionUpdates p')) (cookies p')
                (visited p') in
            match refreshed with
            | Return _ => p''
            | Throw error => unexpected error p''
            end
      end in
    setIsLoading false p3.

Definition fresh_page : Page := mkPage false [] [] 0 [] 0 [] [].

(** Inputs of the worked examples. *)
Definition sample_random : list Byte.byte :=
  [Byte.x00; Byte.x0f; Byte.x10; Byte.xff; Byte.xa5; Byte.x3c; Byte.x7e;
   Byte.x01; Byte.x80; Byte.x99; Byte.xde; Byte.xad; Byte.xbe; Byte.xef;
   Byte.x42; Byte.x07].

(** [decodeURIComponent] on the output of [encodeURIComponent]: [%XX] back
    to the byte, everything else as it is; [None] where a [%] is not
    followed by two upper-case hexadecimal digits. *)
Definition HEX_VALUE (c : ascii) : option nat :=
  let n := nat_of_ascii c in
  if Nat.leb 48 n && Nat.leb n 57 then Some (n - 48)
  else if Nat.leb 65 n && Nat.leb n 70 then Some (n - 55)
  else None.

Fixpoint percent_decode (fuel : nat) (s : string) : option string :=
  match fuel with
  | O => match s with EmptyString => Some EmptyString | _ => None end
  | S fuel' =>
      match s with
      | EmptyString => Some EmptyString
      | String c rest =>
          if Ascii.eqb c "%" then
            match rest with
            | String h (String l rest') =>
                match HEX_VALUE h, HEX_VALUE l, percent_decode fuel' rest' with
                | Some a, Some b, Some r =>
                    Some (String (ascii_of_nat (16 * a + b)) r)
                | _, _, _ => None
                end
            | _ => None
            end
          else option_map (String c) (percent_decode fuel' rest)
      end
  end.

Definition decodeURIComponent (s : string) : option string :=
  percent_decode (String.length s) s.

Definition is_hex_lower (c : ascii) : bool :=
  let n := nat_of_ascii c in
  (Nat.leb 48 n && Nat.leb n 57) || (Nat.leb 97 n && Nat.leb n 102).

(** Reading two lower-case hexadecimal digits back as a byte. *)
Definition hex_value (c : ascii) : option nat :=
  let n := nat_of_ascii c in
  if Nat.leb 48 n && Nat.leb n 57 then Some (n - 48)
  else if Nat.leb 97 n && Nat.leb n 102 then Some (n - 87)
  else None.

Definition byte_of_hex (s : string) : option Byte.byte :=
  match s with
  | String h (String l EmptyString) =>
      match hex_value h, hex_value l with
      | Some a, Some b => Byte.of_nat (16 * a + b)
      | _, _ => None
      end
  | _ => None
  end.

(** How often a character occurs in a text. *)
Fixpoint occurrences (c : ascii) (s : string) : nat :=
  match s with
  | EmptyString => 0
  | String c' s' =>
      (if Ascii.eqb c' c then 1 else 0) + occurrences c s'
  end.

End VercelConnectButton.

(* ================================================================== *)
(** ** Proof support *)

Ltac unfold_actions :=
  unfold getUserDeployments, createDeployment, updateDeployment,
    deleteDeployment, initializeDemoDeployments, try_catch, bind, ret, throw,
    db_select, db_insert, db_update, db_delete, db_transaction,
    console_error, console_log, revalidatePath, spawn, await in *.

Lemma owned_by_spec (i : nat) (uid : string) (r : Deployment) :
  owned_by i uid r = true <-> id r = i /\ userId r = uid.
Proof.
  unfold owned_by. rewrite andb_true_iff, Nat.eqb_eq, String.eqb_eq.
  tauto.
Qed.

Lemma of_user_spec (uid : string) (r : Deployment) :
  of_user uid r = true <-> userId r = uid.
Proof. unfold of_user. apply String.eqb_eq. Qed.

Section ControllerFacts.

Variable validateProjectName : FormValue -> Validation.
Variable SHIPKIT_REPO : string.


(** C3.  When the validator rejects the submitted project name,
    [initiateDeployment] returns [success = false] with the validator's
    error and leaves the whole world as it was: no row is written, no
    statement reaches the database, no task is started, nothing is
    invalidated or logged. *)
Theorem initiateDeployment_invalid_name :
  forall (env : Env) (formData : FormData) (w : World),
    isValid (validateProjectName (formData_get formData "projectName"))
      = false ->
    initiateDeployment validateProjectName SHIPKIT_REPO env formData w =
      (Return
         (mkResult false None
            (v_error
               (validateProjectName (formData_get formData "projectName")))
            None),
       w).
Proof.
  intros env formData w Hinvalid.
  unfold initiateDeployment. rewrite Hinvalid. reflexivity.
Qed.

End ControllerFacts.

Lemma initiateDeployment_invalid_name_witness :
  initiateDeployment sampleValidateProjectName sampleRepo (env_of "alice" 10)
    blank_form seeded_alice
  = (Return (mkResult false None (Some "Project name is required") None),
     seeded_alice).
Proof.
  exact (initiateDeployment_invalid_name sampleValidateProjectName sampleRepo
           (env_of "alice" 10) blank_form seeded_alice eq_refl).
Defined.

(** The sample validator rejects the three kinds of names the spec lists:
    empty after trimming, longer than its bound, or holding a character
    outside its set. *)
Lemma sampleValidateProjectName_rejects (s : string) :
  trim s = "" \/ 100 < String.length (trim s) \/
  (exists c, In c (list_ascii_of_string (trim s)) /\ allowed_char c = false)
  ->
  isValid (sampleValidateProjectName (FormString s)) = false.
Proof.
  intros Hbad. unfold sampleValidateProjectName.
  destruct (Nat.eqb_spec (String.length (trim s)) 0) as [|Hlen];
    [reflexivity|].
  destruct (Nat.ltb_spec 100 (String.length (trim s))) as [|Hshort];
    [reflexivity|].
  destruct (forallb allowed_char (list_ascii_of_string (trim s))) eqn:Hall;
    [|reflexivity].
  destruct Hbad as [Hempty|[Hlong|[c [Hc Hout]]]].
  - rewrite Hempty in Hlen. now elim Hlen.
  - lia.
  - rewrite forallb_forall in Hall. rewrite (Hall c Hc) in Hout.
    discriminate.
Qed.

(* ------------------------------------------------------------------ *)
(** *** Listing *)

Lemma insert_desc_perm (r : Deployment) (l : list Deployment) :
  Permutation (insert_desc r l) (r :: l).
Proof.
  induction l as [|x l IH]; simpl.
  - apply Permutation_refl.
  - destruct (createdAt x <=? createdAt r)%Z.
    + apply Permutation_refl.
    + eapply perm_trans; [apply perm_skip, IH | apply perm_swap].
Qed.

Lemma order_by_createdAt_desc_perm (l : list Deployment) :
  Permutation (order_by_createdAt_desc l) l.
Proof.
  induction l as [|x l IH]; simpl.
  - constructor.
  - eapply perm_trans; [apply insert_desc_perm | apply perm_skip, IH].
Qed.

Lemma insert_desc_sorted (r : Deployment) (l : list Deployment) :
  StronglySorted newer_first l -> StronglySorted newer_first (insert_desc r l).
Proof.
  induction 1 as [|x l Hsorted IH Hall]; simpl.
  - repeat constructor.
  - destruct (Z.leb_spec (createdAt x) (createdAt r)) as [Hle|Hgt].
    + constructor.
      * constructor; assumption.
      * constructor; [exact Hle|].
        rewrite Forall_forall in *. intros y Hy.
        specialize (Hall y Hy). unfold newer_first in *. lia.
    + constructor; [exact IH|].
      rewrite Forall_forall in *. intros y Hy.
      apply (Permutation_in _ (insert_desc_perm r l)) in Hy.
      destruct Hy as [<-|Hy]; [unfold newer_first; lia | auto].
Qed.

Lemma order_by_createdAt_desc_sorted (l : list Deployment) :
  StronglySorted newer_first (order_by_createdAt_desc l).
Proof.
  induction l as [|x l IH]; simpl.
  - constructor.
  - apply insert_desc_sorted, IH.
Qed.

Lemma order_by_createdAt_desc_in (uid : string) (l : list Deployment)
    (r : Deployment) :
  In r (order_by_createdAt_desc (filter (of_user uid) l))
  <-> In r l /\ userId r = uid.
Proof.
  rewrite <- of_user_spec, <- filter_In.
  split; apply Permutation_in;
    [|apply Permutation_sym]; apply order_by_createdAt_desc_perm.
Qed.

Lemma getUserDeployments_returns (env : Env) (w : World) (uid : string) :
  auth env = Some uid -> db env = true -> fault_select env = None ->
  getUserDeployments env w =
    (Return (order_by_createdAt_desc (filter (of_user uid) (rows w))),
     add_stmt SqlSelect w).
Proof.
  intros Hauth Hdb Hfault. unfold_actions.
  rewrite Hauth, Hdb, Hfault. reflexivity.
Qed.

(** C8.  For an authenticated owner, with the database reachable,
    [getUserDeployments] returns a list that holds exactly the rows whose
    [userId] is the owner's (a permutation of them, so none is lost or
    repeated), holds no row of any other owner, and is ordered by
    [createdAt], newest first; the table is left as it was. *)
Theorem getUserDeployments_own_rows_newest_first :
  forall (env : Env) (w : World) (uid : string),
    auth env = Some uid -> db env = true -> fault_select env = None ->
    exists l,
      fst (getUserDeployments env w) = Return l /\
      (forall r, In r l <-> In r (rows w) /\ userId r = uid) /\
      Permutation l (filter (of_user uid) (rows w)) /\
      (forall other r, other <> uid -> In r l -> userId r <> other) /\
      StronglySorted newer_first l /\
      rows (snd (getUserDeployments env w)) = rows w.
Proof.
  intros env w uid Hauth Hdb Hfault.
  rewrite (getUserDeployments_returns env w uid Hauth Hdb Hfault).
  exists (order_by_createdAt_desc (filter (of_user uid) (rows w))).
  split; [reflexivity|].
  split; [intro r; apply order_by_createdAt_desc_in|].
  split; [apply order_by_createdAt_desc_perm|].
  split; [|split; [apply order_by_createdAt_desc_sorted | reflexivity]].
  intros other r Hother Hr. apply order_by_createdAt_desc_in in Hr.
  destruct Hr as [_ ->]. congruence.
Qed.

Lemma getUserDeployments_own_rows_newest_first_witness :
  exists l,
    fst (getUserDeployments (env_of "alice" 20) seeded_alice) = Return l /\
    (forall r, In r l <-> In r (rows seeded_alice) /\ userId r = "alice") /\
    Permutation l (filter (of_user "alice") (rows seeded_alice)) /\
    (forall other r, other <> "alice" -> In r l -> userId r <> other) /\
    StronglySorted newer_first l /\
    rows (snd (getUserDeployments (env_of "alice" 20) seeded_alice))
      = rows seeded_alice.
Proof.
  apply (getUserDeployments_own_rows_newest_first
           (env_of "alice" 20) seeded_alice "alice"); reflexivity.
Defined.

(* ------------------------------------------------------------------ *)
(** *** Deleting *)

Lemma filter_none {A} (f : A -> bool) (l : list A) :
  (forall x, In x l -> f x = false) -> filter f l = [].
Proof.
  induction l as [|x l IH]; simpl; intro H; [reflexivity|].
  rewrite (H x (or_introl eq_refl)). apply IH. intros y Hy. apply H. now right.
Qed.

Lemma filter_all {A} (f : A -> bool) (l : list A) :
  (forall x, In x l -> f x = true) -> filter f l = l.
Proof.
  induction l as [|x l IH]; simpl; intro H; [reflexivity|].
  rewrite (H x (or_introl eq_refl)). f_equal. apply IH. intros y Hy.
  apply H. now right.
Qed.

(** Whatever the id, a call of [deleteDeployment] that returns, returns
    [true]. *)
Lemma deleteDeployment_returns_only_true (env : Env) (i : nat) (w : World)
    (b : bool) :
  fst (deleteDeployment env i w) = Return b -> b = true.
Proof.
  unfold_actions.
  destruct (auth env); [|discriminate].
  destruct (db env); simpl; [|discriminate].
  destruct (fault_delete env); simpl; [discriminate|].
  now intros [= <-].
Qed.

(** On an id that matches no row of the caller, [deleteDeployment] removes
    nothing, does not throw, and still answers [true]. *)
Lemma deleteDeployment_absent_or_foreign (env : Env) (i : nat) (w : World)
    (uid : string) :
  auth env = Some uid -> db env = true -> fault_delete env = None ->
  (forall r, In r (rows w) -> id r = i -> userId r <> uid) ->
  fst (deleteDeployment env i w) = Return true /\
  rows (snd (deleteDeployment env i w)) = rows w.
Proof.
  intros Hauth Hdb Hfault Hnone.
  unfold_actions. rewrite Hauth, Hdb, Hfault. simpl. split; [reflexivity|].
  apply filter_all. intros r Hr. apply negb_true_iff.
  destruct (owned_by i uid r) eqn:Hown; [|reflexivity].
  apply owned_by_spec in Hown. destruct Hown as [Hi Hu].
  now elim (Hnone r Hr Hi).
Qed.

(** C1.  [deleteDeployment] at ids that remove nothing: row 0 belongs to
    alice and bob deletes it, and alice deletes the id 77 that no row
    carries.  Both calls leave the three rows in place and return [true]:
    the returned boolean does not report whether a row was removed. *)
Theorem deleteDeployment_true_though_nothing_removed :
  fst (deleteDeployment (env_of "bob" 6) 0 seeded_alice) = Return true /\
  rows (snd (deleteDeployment (env_of "bob" 6) 0 seeded_alice))
    = rows seeded_alice /\
  fst (deleteDeployment (env_of "alice" 6) 77 seeded_alice) = Return true /\
  rows (snd (deleteDeployment (env_of "alice" 6) 77 seeded_alice))
    = rows seeded_alice /\
  List.length (rows seeded_alice) = 3.
Proof. repeat split; reflexivity. Qed.

(* ------------------------------------------------------------------ *)
(** *** Updating *)

Lemma apply_patch_patched (data : Patch) (t : Z) (r : Deployment) :
  patched data t r (apply_patch data t r).
Proof.
  unfold patched, apply_patch; simpl.
  repeat split; try (intros v Hv; rewrite Hv; reflexivity);
    intros Hv; rewrite Hv; reflexivity.
Qed.

Lemma filter_owned_unique (l : list Deployment) (r : Deployment) (i : nat)
    (uid : string) :
  NoDup (map id l) -> In r l -> id r = i -> userId r = uid ->
  filter (owned_by i uid) l = [r].
Proof.
  intros Hnodup Hin Hi Hu.
  induction l as [|x l IH]; [contradiction|].
  simpl in Hnodup. inversion Hnodup as [|? ? Hfresh Hrest]; subst.
  simpl. destruct Hin as [->|Hin].
  - replace (owned_by (id r) (userId r) r) with true
      by (symmetry; apply owned_by_spec; auto).
    f_equal. apply filter_none. intros y Hy.
    destruct (owned_by (id r) (userId r) y) eqn:Hy'; [|reflexivity].
    apply owned_by_spec in Hy'. destruct Hy' as [Hy' _].
    elim Hfresh. rewrite <- Hy'. now apply in_map.
  - destruct (owned_by (id r) (userId r) x) eqn:Hx.
    + apply owned_by_spec in Hx. destruct Hx as [Hx _].
      elim Hfresh. rewrite Hx. now apply in_map.
    + now apply IH.
Qed.

Lemma map_patch_Forall2 (cond : Deployment -> bool)
    (f : Deployment -> Deployment) (P : Deployment -> Deployment -> Prop)
    (l : list Deployment) :
  (forall x, P x (f x)) ->
  Forall2 (fun x x' => if cond x then P x x' else x' = x) l
    (map (fun x => if cond x then f x else x) l).
Proof.
  intro HP. induction l as [|x l IH]; simpl; constructor; [|exact IH].
  destruct (cond x); [apply HP | reflexivity].
Qed.

(** The caller owns the record with id [i]: the call returns it rewritten. *)
Lemma updateDeployment_hit (env : Env) (i : nat) (data : Patch) (w : World)
    (uid : string) (r : Deployment) :
  auth env = Some uid -> db env = true -> fault_update env = None ->
  NoDup (map id (rows w)) -> In r (rows w) -> id r = i -> userId r = uid ->
  updateDeployment env i data w =
    (Return (Some (apply_patch data (now env) r)),
     add_revalidated "/deployments"
       (add_stmt SqlUpdate
          (set_rows
             (map (fun x =>
                     if owned_by i uid x then apply_patch data (now env) x
                     else x)
                (rows w))
             w))).
Proof.
  intros Hauth Hdb Hfault Hnodup Hin Hi Hu.
  unfold_actions. rewrite Hauth, Hdb, Hfault. simpl.
  rewrite (filter_owned_unique _ r i uid Hnodup Hin Hi Hu). reflexivity.
Qed.

(** C7.  For an authenticated caller, with the database reachable:
    [updateDeployment] rewrites the rows with the given id that the caller
    owns, and in each of them only the columns named in the patch change
    (to the patch's value) while [updatedAt] becomes the time of the call;
    [id], [userId], [createdAt] and every other row stay as they were.  The
    call returns the rewritten row of an existing owned record, and [null]
    when no row with that id belongs to the caller, be it absent or owned by
    someone else: the two cases are not told apart and the table is left
    untouched. *)
Theorem updateDeployment_patches_only_named_columns :
  forall (env : Env) (i : nat) (data : Patch) (w : World) (uid : string),
    auth env = Some uid -> db env = true -> fault_update env = None ->
    NoDup (map id (rows w)) ->
    Forall2
      (fun x x' =>
         if owned_by i uid x then patched data (now env) x x' else x' = x)
      (rows w) (rows (snd (updateDeployment env i data w))) /\
    (forall r, In r (rows w) -> id r = i -> userId r = uid ->
       exists r',
         fst (updateDeployment env i data w) = Return (Some r') /\
         patched data (now env) r r' /\
         In r' (rows (snd (updateDeployment env i data w)))) /\
    ((forall r, In r (rows w) -> id r = i -> userId r <> uid) ->
       fst (updateDeployment env i data w) = Return None /\
       rows (snd (updateDeployment env i data w)) = rows w).
Proof.
  intros env i data w uid Hauth Hdb Hfault Hnodup.
  unfold_actions. rewrite Hauth, Hdb, Hfault. simpl.
  split; [|split].
  - destruct (hd_error _); simpl;
      apply map_patch_Forall2; intro x; apply apply_patch_patched.
  - intros r Hin Hi Hu.
    rewrite (filter_owned_unique _ r i uid Hnodup Hin Hi Hu). simpl.
    exists (apply_patch data (now env) r).
    split; [reflexivity|]. split; [apply apply_patch_patched|].
    apply in_map_iff. exists r. split; [|exact Hin].
    replace (owned_by i uid r) with true
      by (symmetry; apply owned_by_spec; auto).
    reflexivity.
  - intros Hnone.
    assert (Hfalse : forall x, In x (rows w) -> owned_by i uid x = false).
    { intros x Hx. destruct (owned_by i uid x) eqn:Hown; [|reflexivity].
      apply owned_by_spec in Hown. destruct Hown as [Hi Hu].
      now elim (Hnone x Hx Hi). }
    rewrite (filter_none _ _ Hfalse). simpl. split; [reflexivity|].
    rewrite <- (map_id (rows w)) at 2. apply map_ext_in.
    intros x Hx. now rewrite (Hfalse x Hx).
Qed.

Lemma seeded_alice_ids_distinct : NoDup (map id (rows seeded_alice)).
Proof.
  simpl. repeat constructor; simpl; intuition discriminate.
Qed.

Lemma updateDeployment_patches_only_named_columns_witness :
  Forall2
    (fun x x' =>
       if owned_by 2 "alice" x
       then patched clear_description 30 x x' else x' = x)
    (rows seeded_alice)
    (rows (snd (updateDeployment (env_of "alice" 30) 2 clear_description
                  seeded_alice))) /\
  (forall r, In r (rows seeded_alice) -> id r = 2 -> userId r = "alice" ->
     exists r',
       fst (updateDeployment (env_of "alice" 30) 2 clear_description
              seeded_alice) = Return (Some r') /\
       patched clear_description 30 r r' /\
       In r' (rows (snd (updateDeployment (env_of "alice" 30) 2
                           clear_description seeded_alice)))) /\
  ((forall r, In r (rows seeded_alice) -> id r = 2 -> userId r <> "alice") ->
     fst (updateDeployment (env_of "alice" 30) 2 clear_description
            seeded_alice) = Return None /\
     rows (snd (updateDeployment (env_of "alice" 30) 2 clear_description
                  seeded_alice))
       = rows seeded_alice).
Proof.
  apply (updateDeployment_patches_only_named_columns
           (env_of "alice" 30) 2 clear_description seeded_alice "alice");
    [reflexivity | reflexivity | reflexivity
    | exact seeded_alice_ids_distinct].
Defined.

(* ------------------------------------------------------------------ *)
(** *** Seeding *)

Lemma count_of_user_zero (uid : string) (w : World) :
  count_of_user uid w = 0 -> filter (of_user uid) (rows w) = [].
Proof. unfold count_of_user. apply length_zero_iff_nil. Qed.

(** The owner already has a row: the seeder reads and leaves. *)
Lemma initializeDemoDeployments_noop (env : Env) (w : World) (uid : string) :
  auth env = Some uid -> db env = true -> fault_select env = None ->
  0 < count_of_user uid w ->
  initializeDemoDeployments env w = (Return tt, add_stmt SqlSelect w).
Proof.
  intros Hauth Hdb Hfault Hsome.
  unfold count_of_user in Hsome.
  unfold_actions. rewrite Hauth, Hdb, Hfault. simpl.
  destruct (filter (of_user uid) (rows w)); simpl in *; [lia | reflexivity].
Qed.

(** The owner has no row and both statements go through. *)
Lemma initializeDemoDeployments_seeds (env : Env) (w : World) (uid : string) :
  auth env = Some uid -> db env = true -> fault_select env = None ->
  fault_insert env = None -> count_of_user uid w = 0 ->
  initializeDemoDeployments env w =
    (Return tt,
     add_stmt (SqlInsert 3)
       (set_next_id (next_id w + 3)
          (set_rows
             (rows w ++ number_rows env (next_id w) (demoDeployments uid))%list
             (add_stmt SqlSelect w)))).
Proof.
  intros Hauth Hdb Hfs Hfi Hnone.
  unfold_actions. rewrite Hauth, Hdb, Hfs. simpl.
  rewrite (count_of_user_zero _ _ Hnone). simpl. rewrite Hfi. reflexivity.
Qed.

Lemma count_of_user_app (uid : string) (w : World) (l : list Deployment) :
  List.length (filter (of_user uid) (rows w ++ l)%list)
  = count_of_user uid w + List.length (filter (of_user uid) l).
Proof.
  unfold count_of_user. now rewrite filter_app, length_app.
Qed.

(** C9.  For an authenticated owner, with the database reachable and both
    statements going through: when the owner has no row,
    [initializeDemoDeployments] appends exactly three rows of that owner,
    two [completed] and one [failed], with one select followed by one
    insert of three rows, and a further call leaves the table as it is;
    when the owner has at least one row, the call reads once and inserts
    nothing. *)
Theorem initializeDemoDeployments_three_then_none :
  forall (env : Env) (w : World) (uid : string),
    auth env = Some uid -> db env = true -> fault_select env = None ->
    fault_insert env = None ->
    fst (initializeDemoDeployments env w) = Return tt /\
    (count_of_user uid w = 0 ->
       count_of_user uid (snd (initializeDemoDeployments env w)) = 3 /\
       (exists a b c,
          rows (snd (initializeDemoDeployments env w))
            = (rows w ++ [a; b; c])%list /\
          map userId [a; b; c] = [uid; uid; uid] /\
          map status [a; b; c] = [completed; completed; failed] /\
          map projectName [a; b; c]
            = ["my-shipkit-app"; "shipkit-staging"; "shipkit-dev"]) /\
       stmts (snd (initializeDemoDeployments env w))
         = (stmts w ++ [SqlSelect; SqlInsert 3])%list /\
       (forall env2,
          auth env2 = Some uid -> db env2 = true ->
          fault_select env2 = None ->
          fst (initializeDemoDeployments env2
                 (snd (initializeDemoDeployments env w))) = Return tt /\
          rows (snd (initializeDemoDeployments env2
                       (snd (initializeDemoDeployments env w))))
            = rows (snd (initializeDemoDeployments env w)))) /\
    (0 < count_of_user uid w ->
       rows (snd (initializeDemoDeployments env w)) = rows w /\
       stmts (snd (initializeDemoDeployments env w))
         = (stmts w ++ [SqlSelect])%list).
Proof.
  intros env w uid Hauth Hdb Hfs Hfi.
  destruct (Nat.eq_dec (count_of_user uid w) 0) as [Hzero|Hpos].
  - rewrite (initializeDemoDeployments_seeds env w uid Hauth Hdb Hfs Hfi Hzero).
    assert (Hthree :
              count_of_user uid
                (add_stmt (SqlInsert 3)
                   (set_next_id (next_id w + 3)
                      (set_rows
                         (rows w ++
                            number_rows env (next_id w) (demoDeployments uid))%list
                         (add_stmt SqlSelect w)))) = 3).
    { unfold count_of_user at 1. simpl rows.
      rewrite count_of_user_app, Hzero. simpl.
      unfold of_user. simpl. rewrite String.eqb_refl. reflexivity. }
    split; [reflexivity|]. split; [|intro; lia].
    intros _. split; [exact Hthree|]. split; [|split].
    + do 3 eexists. simpl. repeat split; reflexivity.
    + simpl. rewrite <- app_assoc. reflexivity.
    + intros env2 Hauth2 Hdb2 Hfs2.
      rewrite (initializeDemoDeployments_noop env2 _ uid Hauth2 Hdb2 Hfs2);
        [split; reflexivity
        | apply (eq_ind_r (fun n => 0 < n) (x := 3)); [lia | exact Hthree]].
  - assert (Hsome : 0 < count_of_user uid w) by lia.
    rewrite (initializeDemoDeployments_noop env w uid Hauth Hdb Hfs Hsome).
    split; [reflexivity|]. split; [intro; lia|].
    intros _. split; reflexivity.
Qed.

Lemma initializeDemoDeployments_three_then_none_witness :
  count_of_user "alice" empty_world = 0 /\
  count_of_user "alice"
    (snd (initializeDemoDeployments (env_of "alice" 5) empty_world)) = 3 /\
  rows (snd (initializeDemoDeployments (env_of "alice" 9) seeded_alice))
    = rows seeded_alice.
Proof.
  destruct (initializeDemoDeployments_three_then_none
              (env_of "alice" 5) empty_world "alice"
              eq_refl eq_refl eq_refl eq_refl)
    as [_ [Hfresh _]].
  destruct (Hfresh eq_refl) as [Hcount [_ [_ Hagain]]].
  split; [reflexivity|]. split; [exact Hcount|].
  exact (proj2 (Hagain (env_of "alice" 9) eq_refl eq_refl eq_refl)).
Defined.

(** C10.  [initializeDemoDeployments] throws exactly when there is no
    principal ([Unauthorized]) or no database handle ([Database not
    available]).  For an authenticated owner with a database handle, a
    select that rejects, or an insert that rejects after the owner was found
    to have no row, is caught: the call returns normally, no row is added,
    the caller sees nothing but a line on the console. *)
Theorem initializeDemoDeployments_swallows_store_errors :
  forall (env : Env) (w : World),
    (forall e,
       fst (initializeDemoDeployments env w) = Throw e <->
       (auth env = None /\ e = JsError "Unauthorized") \/
       (auth env <> None /\ db env = false /\
        e = JsError "Database not available")) /\
    (forall uid e,
       auth env = Some uid -> db env = true ->
       fault_select env = Some e \/
       (fault_select env = None /\ count_of_user uid w = 0 /\
        fault_insert env = Some e) ->
       fst (initializeDemoDeployments env w) = Return tt /\
       rows (snd (initializeDemoDeployments env w)) = rows w /\
       count_of_user uid (snd (initializeDemoDeployments env w)) =
         count_of_user uid w /\
       console (snd (initializeDemoDeployments env w))
         = (console w
              ++ [ConsoleError "Failed to initialize demo deployments:" e])%list
       /\
       revalidated (snd (initializeDemoDeployments env w)) = revalidated w).
Proof.
  intros env w. split.
  - intro e. unfold_actions.
    destruct (auth env) as [uid|] eqn:Hauth.
    + destruct (db env) eqn:Hdb; simpl.
      * split.
        -- destruct (fault_select env); simpl; [discriminate|].
           destruct (Nat.ltb 0 _); simpl; [discriminate|].
           destruct (fault_insert env); simpl; discriminate.
        -- intros [[? _]|[_ [? _]]]; discriminate.
      * split.
        -- intros [= <-]. right. repeat split. discriminate.
        -- intros [[? _]|[_ [_ ->]]]; [discriminate | reflexivity].
    + split.
      * intros [= <-]. left. split; reflexivity.
      * intros [[_ ->]|[Habs _]]; [reflexivity | now elim Habs].
  - intros uid e Hauth Hdb Hfault.
    destruct Hfault as [Hfs|[Hfs [Hzero Hfi]]].
    + assert (Hrun :
                initializeDemoDeployments env w =
                  (Return tt,
                   add_console
                     (ConsoleError "Failed to initialize demo deployments:" e)
                     w)).
      { unfold_actions. rewrite Hauth, Hdb, Hfs. reflexivity. }
      rewrite Hrun. repeat split; reflexivity.
    + assert (Hrun :
                initializeDemoDeployments env w =
                  (Return tt,
                   add_console
                     (ConsoleError "Failed to initialize demo deployments:" e)
                     (add_stmt SqlSelect w))).
      { unfold_actions. rewrite Hauth, Hdb, Hfs. simpl.
        rewrite (count_of_user_zero _ _ Hzero). simpl. rewrite Hfi.
        reflexivity. }
      rewrite Hrun. repeat split; reflexivity.
Qed.

Lemma initializeDemoDeployments_swallows_store_errors_witness :
  fst (initializeDemoDeployments env_insert_down empty_world) = Return tt /\
  rows (snd (initializeDemoDeployments env_insert_down empty_world)) = [] /\
  console (snd (initializeDemoDeployments env_insert_down empty_world))
    = [ConsoleError "Failed to initialize demo deployments:"
         (JsError "connection lost")].
Proof.
  destruct (initializeDemoDeployments_swallows_store_errors
              env_insert_down empty_world)
    as [_ Hswallow].
  destruct (Hswallow "alice" (JsError "connection lost") eq_refl eq_refl
              (or_intror (conj eq_refl (conj eq_refl eq_refl))))
    as [Hret [Hrows [_ [Hconsole _]]]].
  split; [exact Hret|]. split; [exact Hrows | exact Hconsole].
Defined.

(* ------------------------------------------------------------------ *)
(** *** What each operation does to the table *)

Lemma demoDeployments_error_iff_failed (uid : string) :
  Forall new_error_iff_failed (demoDeployments uid).
Proof.
  unfold demoDeployments, new_error_iff_failed.
  repeat constructor; simpl; try discriminate.
  - intros [m [[=] _]].
  - intros [m [[=] _]].
  - intros _. eexists. split; [reflexivity | discriminate].
Qed.

Lemma deploying_error_iff_failed (uid name : string) (d : option string) :
  Forall new_error_iff_failed
    [with_user (mkDeploymentData name d None None None None deploying None)
       uid].
Proof.
  constructor; [|constructor]. unfold new_error_iff_failed. simpl.
  split; [discriminate | intros [m [[=] _]]].
Qed.

Section Lifecycle.

Variable validateProjectName : FormValue -> Validation.
Variable SHIPKIT_REPO : string.

Lemma step_effect (env : Env) (op : Op) (w : World) :
  Effect env op w (step validateProjectName SHIPKIT_REPO env op w).
Proof.
  destruct op as [formData|n outcome| |i data|i|]; simpl.
  - (* Initiate *)
    unfold initiateDeployment.
    destruct (isValid _); simpl; [|now apply Untouched].
    destruct (formData_get formData "projectName") as [|s|];
      try now apply Untouched.
    unfold_actions.
    destruct (auth env) as [uid|]; [|now apply Untouched].
    destruct (db env); simpl; [|now apply Untouched].
    destruct (fault_insert env); simpl; [now apply Untouched|].
    apply (Inserted _ _ _ _
             [with_user
                (mkDeploymentData (trim s)
                   (Some ("Deployment of " ++ trim s)) None None None None
                   deploying None)
                uid]);
      [reflexivity | reflexivity | apply deploying_error_iff_failed].
  - (* Settle *)
    destruct (nth_error (jobs w) n) as [j|] eqn:Hj; [|now apply Untouched].
    unfold deployment_task. unfold_actions.
    destruct outcome as [result|e]; simpl; [now apply Untouched|].
    destruct (auth env) as [uid|] eqn:Hauth; [|now apply Untouched].
    destruct (db env); simpl; [|now apply Untouched].
    destruct (fault_update env); simpl; [now apply Untouched|].
    apply (Rewritten _ _ _ _ (deploymentId j) uid (failure_patch e)).
    + destruct (hd_error _); reflexivity.
    + destruct (hd_error _); reflexivity.
    + exact Hauth.
    + right. exists n, j, e. repeat split. exact Hj.
  - (* ListOwn *)
    unfold_actions.
    destruct (auth env) as [uid|]; [|now apply Untouched].
    destruct (db env); simpl; [|now apply Untouched].
    destruct (fault_select env); now apply Untouched.
  - (* Update *)
    unfold_actions.
    destruct (auth env) as [uid|] eqn:Hauth; [|now apply Untouched].
    destruct (db env); simpl; [|now apply Untouched].
    destruct (fault_update env); simpl; [now apply Untouched|].
    apply (Rewritten _ _ _ _ i uid data).
    + destruct (hd_error _); reflexivity.
    + destruct (hd_error _); reflexivity.
    + exact Hauth.
    + now left.
  - (* Delete *)
    unfold_actions.
    destruct (auth env) as [uid|]; [|now apply Untouched].
    destruct (db env); simpl; [|now apply Untouched].
    destruct (fault_delete env); simpl; [now apply Untouched|].
    now apply (Removed _ _ _ _ i uid).
  - (* Seed *)
    unfold_actions.
    destruct (auth env) as [uid|]; [|now apply Untouched].
    destruct (db env); simpl; [|now apply Untouched].
    destruct (fault_select env); simpl; [now apply Untouched|].
    destruct (Nat.ltb 0 _); simpl; [now apply Untouched|].
    destruct (fault_insert env); simpl; [now apply Untouched|].
    apply (Inserted _ _ _ _ (demoDeployments uid));
      [reflexivity | reflexivity | apply demoDeployments_error_iff_failed].
Qed.


(* ------------------------------------------------------------------ *)
(** *** Ids stay unique *)

Lemma number_rows_ids (env : Env) (n : nat) (vs : list NewDeployment) :
  map id (number_rows env n vs) = seq n (List.length vs).
Proof.
  revert n. induction vs as [|v vs IH]; intro n; simpl; [reflexivity|].
  now rewrite IH.
Qed.

Lemma apply_patch_keeps_id (cond : Deployment -> bool) (data : Patch) (t : Z)
    (l : list Deployment) :
  map id (map (fun r => if cond r then apply_patch data t r else r) l)
  = map id l.
Proof.
  rewrite map_map. apply map_ext. intro r. now destruct (cond r).
Qed.

Lemma filter_keeps_ids_distinct (keep : Deployment -> bool)
    (l : list Deployment) :
  NoDup (map id l) -> NoDup (map id (filter keep l)).
Proof.
  induction l as [|x l IH]; simpl; intro Hdistinct; [constructor|].
  apply NoDup_cons_iff in Hdistinct. destruct Hdistinct as [Hfresh Hrest].
  destruct (keep x); simpl; [|now apply IH].
  apply NoDup_cons; [|now apply IH].
  rewrite in_map_iff. intros [y [Hy Hin]]. apply filter_In in Hin.
  apply Hfresh, in_map_iff. exists y. tauto.
Qed.

Lemma Effect_store_ok (env : Env) (op : Op) (w w' : World) :
  Effect env op w w' -> store_ok w -> store_ok w'.
Proof.
  intros Heffect [Hnodup Hbelow]. unfold store_ok.
  destruct Heffect as [Hrows Hnext|vs Hrows Hnext _|i uid data Hrows Hnext _ _
                      |i uid Hrows Hnext];
    rewrite Hrows, Hnext.
  - split; assumption.
  - split.
    + rewrite map_app, number_rows_ids.
      apply NoDup_app; [exact Hnodup | apply seq_NoDup |].
      intros k Hk Hk'. apply in_seq in Hk'. apply in_map_iff in Hk.
      destruct Hk as [r [<- Hr]]. rewrite Forall_forall in Hbelow.
      specialize (Hbelow r Hr). lia.
    + apply Forall_app. split.
      * eapply Forall_impl; [|exact Hbelow]. simpl. intros; lia.
      * rewrite Forall_forall. intros r Hr.
        apply (in_map id) in Hr. rewrite number_rows_ids in Hr.
        apply in_seq in Hr. lia.
  - split.
    + now rewrite apply_patch_keeps_id.
    + rewrite Forall_forall in *. intros r Hr. apply in_map_iff in Hr.
      destruct Hr as [x [<- Hx]]. specialize (Hbelow x Hx).
      now destruct (owned_by i uid x).
  - split.
    + now apply filter_keeps_ids_distinct.
    + rewrite Forall_forall in *. intros r Hr. apply filter_In in Hr.
      now apply Hbelow.
Qed.

Lemma step_store_ok (env : Env) (op : Op) (w : World) :
  store_ok w -> store_ok (step validateProjectName SHIPKIT_REPO env op w).
Proof. apply (Effect_store_ok env op), step_effect. Qed.

Lemma run_store_ok (trace : list (Env * Op)) (w : World) :
  store_ok w -> store_ok (run validateProjectName SHIPKIT_REPO trace w).
Proof.
  revert w. induction trace as [|[env op] rest IH]; intros w Hok; simpl;
    [exact Hok|].
  apply IH, step_store_ok, Hok.
Qed.

Lemma reachable_store_ok (w : World) :
  reachable validateProjectName SHIPKIT_REPO w -> store_ok w.
Proof.
  intros [trace <-]. apply run_store_ok. split; simpl; constructor.
Qed.
(* ------------------------------------------------------------------ *)
(** *** Looking a row up by id *)

Lemma find_id_app (i : nat) (l l' : list Deployment) (r : Deployment) :
  find (fun x => Nat.eqb (id x) i) l = Some r ->
  find (fun x => Nat.eqb (id x) i) (l ++ l') = Some r.
Proof.
  induction l as [|x l IH]; simpl; [discriminate|].
  destruct (Nat.eqb (id x) i); auto.
Qed.

Lemma find_id_map (i : nat) (f : Deployment -> Deployment)
    (l : list Deployment) :
  (forall x, id (f x) = id x) ->
  find (fun x => Nat.eqb (id x) i) (map f l)
  = option_map f (find (fun x => Nat.eqb (id x) i) l).
Proof.
  intro Hid. induction l as [|x l IH]; simpl; [reflexivity|].
  rewrite Hid. destruct (Nat.eqb (id x) i); [reflexivity | exact IH].
Qed.

Lemma find_id_unique (l : list Deployment) (r : Deployment) :
  NoDup (map id l) -> In r l ->
  find (fun x => Nat.eqb (id x) (id r)) l = Some r.
Proof.
  induction l as [|x l IH]; simpl; intros Hnodup Hin; [contradiction|].
  inversion Hnodup as [|? ? Hfresh Hrest]; subst.
  destruct Hin as [->|Hin].
  - now rewrite Nat.eqb_refl.
  - destruct (Nat.eqb_spec (id x) (id r)) as [Heq|_]; [|now apply IH].
    elim Hfresh. rewrite Heq. now apply in_map.
Qed.

Lemma find_id_filter (i : nat) (p : Deployment -> bool)
    (l : list Deployment) (r r' : Deployment) :
  NoDup (map id l) ->
  find (fun x => Nat.eqb (id x) i) l = Some r ->
  find (fun x => Nat.eqb (id x) i) (filter p l) = Some r' ->
  r' = r.
Proof.
  intros Hnodup Hr Hr'.
  apply find_some in Hr. destruct Hr as [Hin Hi].
  apply find_some in Hr'. destruct Hr' as [Hin' Hi'].
  apply filter_In in Hin'. destruct Hin' as [Hin' _].
  apply Nat.eqb_eq in Hi, Hi'.
  pose proof (find_id_unique l r Hnodup Hin) as H1.
  pose proof (find_id_unique l r' Hnodup Hin') as H2.
  rewrite Hi in H1. rewrite Hi' in H2. congruence.
Qed.

(* ------------------------------------------------------------------ *)
(** *** The status of a record across one operation *)


(* ------------------------------------------------------------------ *)
(** *** The error text and the failed status *)

Lemma new_row_error_iff_failed (env : Env) (n : nat) (v : NewDeployment) :
  new_error_iff_failed v -> error_iff_failed (new_row env n v).
Proof.
  unfold new_error_iff_failed, error_iff_failed, has_error. simpl.
  intros [Hto Hfrom]. split.
  - intro Hset. apply Hfrom.
    destruct (n_error v) as [m|]; [|discriminate].
    exists m. split; [reflexivity|].
    intros ->. discriminate.
  - intro Hfailed. destruct (Hto Hfailed) as [m [-> Hm]].
    apply negb_true_iff. now apply String.eqb_neq.
Qed.

Lemma number_rows_error_iff_failed (env : Env) (n : nat)
    (vs : list NewDeployment) :
  Forall new_error_iff_failed vs ->
  Forall error_iff_failed (number_rows env n vs).
Proof.
  intro H. revert n. induction H as [|v vs Hv _ IH]; intro n; simpl;
    constructor; [now apply new_row_error_iff_failed | apply IH].
Qed.

Lemma apply_patch_error_iff_failed (data : Patch) (t : Z) (r : Deployment) :
  coherent data -> error_iff_failed r ->
  error_iff_failed (apply_patch data t r).
Proof.
  unfold coherent, error_iff_failed, has_error, apply_patch. simpl.
  destruct (p_status data) as [[| |]|]; destruct (p_error data) as [[m|]|];
    try contradiction; intros Hc Hr; try exact Hr;
    try (split; intro; discriminate).
  split; [reflexivity|]. intros _. apply negb_true_iff.
  now apply String.eqb_neq.
Qed.

Lemma writes_coherent (op : Op) (w : World) (i : nat) (data : Patch) :
  keeps_error_rule op -> writes op w i data -> coherent data.
Proof.
  intros Hkeeps [->|[n [j [e [-> [_ [_ ->]]]]]]]; simpl in Hkeeps.
  - exact Hkeeps.
  - exact Hkeeps.
Qed.

Lemma step_error_iff_failed (env : Env) (op : Op) (w : World) :
  keeps_error_rule op ->
  Forall error_iff_failed (rows w) ->
  Forall error_iff_failed
    (rows (step validateProjectName SHIPKIT_REPO env op w)).
Proof.
  intros Hkeeps Hall.
  destruct (step_effect env op w)
    as [Hrows _|vs Hrows _ Hnew|i uid data Hrows _ _ Hwrites|i uid Hrows _];
    rewrite Hrows.
  - exact Hall.
  - apply Forall_app. split; [exact Hall|].
    now apply number_rows_error_iff_failed.
  - rewrite Forall_forall in *. intros r' Hr'. apply in_map_iff in Hr'.
    destruct Hr' as [r [<- Hr]]. specialize (Hall r Hr).
    destruct (owned_by i uid r); [|exact Hall].
    apply apply_patch_error_iff_failed; [|exact Hall].
    exact (writes_coherent op w i data Hkeeps Hwrites).
  - rewrite Forall_forall in *. intros r Hr. apply filter_In in Hr.
    now apply Hall.
Qed.

Lemma run_error_iff_failed (trace : list (Env * Op)) (w : World) :
  Forall (fun call => keeps_error_rule (snd call)) trace ->
  Forall error_iff_failed (rows w) ->
  Forall error_iff_failed
    (rows (run validateProjectName SHIPKIT_REPO trace w)).
Proof.
  intro Htrace. revert w.
  induction Htrace as [|[env op] rest Hop _ IH]; intros w Hall; simpl;
    [exact Hall|].
  apply IH. now apply step_error_iff_failed.
Qed.

(** C5 (as amended).  Start from the empty table and run any sequence of
    operations in which every [updateDeployment] patch writes [status] and
    [error] together or not at all ([failed] with a non-empty text, another
    status with [null]), and every job that throws does so with a non-empty
    message.  Then every record in the table has a non-empty [error] if and
    only if its status is [failed]: this holds for the record created by
    [initiateDeployment], for the seeded records, and after the job-failure
    reconciliation. *)
Theorem error_iff_failed_when_patches_coherent :
  forall (trace : list (Env * Op)),
    Forall (fun call => keeps_error_rule (snd call)) trace ->
    Forall error_iff_failed
      (rows (run validateProjectName SHIPKIT_REPO trace empty_world)).
Proof.
  intros trace Htrace. apply run_error_iff_failed; [exact Htrace|].
  constructor.
Qed.

End Lifecycle.

Lemma seeded_alice_store_ok : store_ok seeded_alice.
Proof.
  split; simpl.
  - repeat constructor; simpl; intuition discriminate.
  - repeat constructor.
Qed.

Lemma my_app_started_store_ok : store_ok my_app_started.
Proof.
  split; simpl.
  - repeat constructor; simpl; intuition.
  - repeat constructor.
Qed.



(** C5, the claim as stated fails: after alice's
    [updateDeployment(0, {error: "oops"})] her record 0 is still
    [completed] and carries a non-empty error text. *)
Lemma update_sets_error_on_completed :
  ~ Forall error_iff_failed
      (rows (run sampleValidateProjectName sampleRepo error_only_trace
               empty_world)).
Proof.
  intro Hall. inversion Hall as [|r rest Hfirst _]; subst.
  destruct Hfirst as [Hset _]. specialize (Hset eq_refl). discriminate.
Qed.

Lemma error_iff_failed_when_patches_coherent_witness :
  Forall (fun call => keeps_error_rule (snd call)) build_failed_trace /\
  Forall error_iff_failed
    (rows (run sampleValidateProjectName sampleRepo build_failed_trace
             empty_world)).
Proof.
  assert (Hkeeps :
            Forall (fun call => keeps_error_rule (snd call))
              build_failed_trace).
  { repeat constructor. simpl. discriminate. }
  split; [exact Hkeeps|].
  exact (error_iff_failed_when_patches_coherent sampleValidateProjectName
           sampleRepo build_failed_trace Hkeeps).
Defined.

(* ------------------------------------------------------------------ *)
(** *** Starting a deployment *)

Lemma createDeployment_inserts (env : Env) (data : DeploymentData)
    (w : World) (uid : string) :
  auth env = Some uid -> db env = true -> fault_insert env = None ->
  createDeployment env data w =
    (Return (new_row env (next_id w) (with_user data uid)),
     add_revalidated "/deployments"
       (add_stmt (SqlInsert 1)
          (set_next_id (next_id w + 1)
             (set_rows
                (rows w ++ [new_row env (next_id w) (with_user data uid)])%list
                w)))).
Proof.
  intros Hauth Hdb Hfault. unfold_actions.
  rewrite Hauth, Hdb, Hfault. reflexivity.
Qed.

Lemma filter_id_fresh (l : list Deployment) (i : nat) :
  ~ In i (map id l) -> filter (fun x => Nat.eqb (id x) i) l = [].
Proof.
  intro Hfresh. apply filter_none. intros x Hx.
  apply Nat.eqb_neq. intros <-. apply Hfresh. now apply in_map.
Qed.

Section Initiation.

Variable validateProjectName : FormValue -> Validation.
Variable SHIPKIT_REPO : string.

(** C2.  For a project name the validator accepts, submitted by an
    authenticated owner while the database takes the insert, on a table with
    unique ids: [initiateDeployment] returns [success = true]; the table is
    the old one followed by one new record of that owner, with the trimmed
    name, status [deploying] and no error; it is the only record with its
    id, and the detached task that waits for the job carries that id.  A
    later [getUserDeployments] call of the same owner returns a list that
    holds this record, while the task is still pending. *)
Theorem initiateDeployment_valid_name_one_deploying_record :
  forall (env : Env) (formData : FormData) (s : string) (w : World)
         (uid : string),
    formData_get formData "projectName" = FormString s ->
    isValid (validateProjectName (FormString s)) = true ->
    auth env = Some uid -> db env = true -> fault_insert env = None ->
    store_ok w ->
    exists res r,
      fst (initiateDeployment validateProjectName SHIPKIT_REPO env formData w)
        = Return res /\
      success res = true /\ r_error res = None /\
      rows (snd (initiateDeployment validateProjectName SHIPKIT_REPO env
                   formData w))
        = (rows w ++ [r])%list /\
      ~ In (id r) (map id (rows w)) /\
      userId r = uid /\ projectName r = trim s /\
      description r = Some ("Deployment of " ++ trim s) /\
      status r = deploying /\ error r = None /\
      List.length
        (filter (fun x => Nat.eqb (id x) (id r))
           (rows (snd (initiateDeployment validateProjectName SHIPKIT_REPO
                         env formData w)))) = 1 /\
      jobs (snd (initiateDeployment validateProjectName SHIPKIT_REPO env
                   formData w))
        = (jobs w
             ++ [mkJob SHIPKIT_REPO (trim s) ("Deployment of " ++ trim s)
                   (id r)])%list /\
      (forall env2,
         auth env2 = Some uid -> db env2 = true ->
         fault_select env2 = None ->
         exists l,
           fst (getUserDeployments env2
                  (snd (initiateDeployment validateProjectName SHIPKIT_REPO
                          env formData w))) = Return l /\
           In r l /\
           In (mkJob SHIPKIT_REPO (trim s) ("Deployment of " ++ trim s)
                 (id r))
              (jobs (snd (getUserDeployments env2
                            (snd (initiateDeployment validateProjectName
                                    SHIPKIT_REPO env formData w)))))).
Proof.
  intros env formData s w uid Hget Hvalid Hauth Hdb Hfault [_ Hbelow].
  set (data := mkDeploymentData (trim s) (Some ("Deployment of " ++ trim s))
                 None None None None deploying None).
  set (r := new_row env (next_id w) (with_user data uid)).
  assert (Hfresh : ~ In (id r) (map id (rows w))).
  { intro Hin. apply in_map_iff in Hin. destruct Hin as [x [Hx Hin]].
    rewrite Forall_forall in Hbelow. specialize (Hbelow x Hin).
    simpl in Hx. lia. }
  assert (Hrun :
            initiateDeployment validateProjectName SHIPKIT_REPO env formData w
            = (Return
                 (mkResult true
                    (Some "Deployment initiated successfully! You can monitor the progress on this page.")
                    None (Some (mkResultData None None))),
               set_jobs
                 (jobs w
                    ++ [mkJob SHIPKIT_REPO (trim s)
                          ("Deployment of " ++ trim s) (id r)])%list
                 (add_revalidated "/deployments"
                    (add_stmt (SqlInsert 1)
                       (set_next_id (next_id w + 1)
                          (set_rows (rows w ++ [r])%list w)))))).
  { unfold initiateDeployment. rewrite Hget, Hvalid.
    cbv beta iota zeta delta [negb]. unfold try_catch, bind.
    fold data.
    rewrite (createDeployment_inserts env data w uid Hauth Hdb Hfault).
    reflexivity. }
  rewrite Hrun. simpl fst. simpl snd.
  eexists. exists r.
  split; [reflexivity|]. split; [reflexivity|]. split; [reflexivity|].
  split; [reflexivity|]. split; [exact Hfresh|].
  do 5 (split; [reflexivity|]).
  split.
  { simpl rows. rewrite filter_app, (filter_id_fresh _ _ Hfresh). simpl.
    now rewrite Nat.eqb_refl. }
  split; [reflexivity|].
  intros env2 Hauth2 Hdb2 Hfault2.
  rewrite (getUserDeployments_returns env2 _ uid Hauth2 Hdb2 Hfault2).
  eexists. split; [reflexivity|]. split.
  - apply order_by_createdAt_desc_in. simpl. split; [|reflexivity].
    apply in_or_app. right. now left.
  - simpl. apply in_or_app. right. now left.
Qed.

End Initiation.

Lemma initiateDeployment_valid_name_one_deploying_record_witness :
  exists res r,
    fst (initiateDeployment sampleValidateProjectName sampleRepo
           (env_of "alice" 10) my_app_form seeded_alice) = Return res /\
    success res = true /\
    rows (snd (initiateDeployment sampleValidateProjectName sampleRepo
                 (env_of "alice" 10) my_app_form seeded_alice))
      = (rows seeded_alice ++ [r])%list /\
    status r = deploying.
Proof.
  destruct (initiateDeployment_valid_name_one_deploying_record
              sampleValidateProjectName sampleRepo (env_of "alice" 10)
              my_app_form "my-app" seeded_alice "alice"
              eq_refl eq_refl eq_refl eq_refl eq_refl seeded_alice_store_ok)
    as [res [r [Hres [Hsuccess [_ [Hrows [_ [_ [_ [_ [Hstatus _]]]]]]]]]]].
  exists res, r. repeat split; assumption.
Defined.

(* ------------------------------------------------------------------ *)
(** *** The job throws *)

Lemma updateDeployment_throws (env : Env) (i : nat) (data : Patch)
    (w : World) :
  auth env = None \/ db env = false \/ fault_update env <> None ->
  exists ue pre,
    updateDeployment env i data w
    = (Throw ue, mkWorld (rows w) (next_id w) (revalidated w)
                   (console w ++ pre) (jobs w) (stmts w)).
Proof.
  intros Hfail. unfold_actions.
  destruct (auth env) as [uid|].
  - destruct (db env); simpl.
    + destruct (fault_update env) as [ue|]; simpl.
      * eexists. eexists. reflexivity.
      * destruct Hfail as [?|[?|Habs]]; try discriminate. now elim Habs.
    + exists (JsError "Database not available"), [].
      rewrite app_nil_r. now destruct w.
  - exists (JsError "Unauthorized"), [].
    rewrite app_nil_r. now destruct w.
Qed.

(** C6.  The detached task of [initiateDeployment], when the job throws
    [e], for the record [r] the task was started for (still in the table,
    ids unique).  The task itself completes normally, whatever happens: the
    failure reaches nobody.  When the reconciling [updateDeployment] goes
    through (the owner's session, the database reachable), the record ends
    with status [failed] and [error] set to the message of [e] (for an
    [Error] with message ["Build failed"], that text), every other column
    but [updatedAt] as before.  When the reconciling [updateDeployment]
    throws (no session, no database handle, or a rejected statement), the
    table is left as it was, so a [deploying] record stays [deploying], and
    the last line on the console reports the failed reconciliation. *)
Theorem job_failure_reconciled_never_rethrown :
  forall (env : Env) (j : Job) (e : Thrown) (w : World) (r : Deployment),
    NoDup (map id (rows w)) -> In r (rows w) -> id r = deploymentId j ->
    fst (deployment_task env j (Throw e) w) = Return tt /\
    (auth env = Some (userId r) -> db env = true ->
     fault_update env = None ->
     exists r',
       find_row (deploymentId j) (snd (deployment_task env j (Throw e) w))
         = Some r' /\
       status r' = failed /\
       error r' = Some (message_or e "An unknown error occurred") /\
       patched (failure_patch e) (now env) r r') /\
    (auth env = None \/ db env = false \/ fault_update env <> None ->
     rows (snd (deployment_task env j (Throw e) w)) = rows w /\
     status_of (deploymentId j) (snd (deployment_task env j (Throw e) w))
       = Some (status r) /\
     exists updateError,
       last (console (snd (deployment_task env j (Throw e) w)))
            (ConsoleLog "")
       = ConsoleError
           ("Failed to update deployment status for " ++ j_projectName j
              ++ ":")
           updateError).
Proof.
  intros env j e w r Hnodup Hin Hid.
  pose proof (find_id_unique (rows w) r Hnodup Hin) as Hfind.
  rewrite Hid in Hfind.
  split; [|split].
  - unfold deployment_task, try_catch, bind, await, console_error, ret.
    fold (failure_patch e).
    destruct (updateDeployment env (deploymentId j) (failure_patch e) _)
      as [[updated|updateError] w']; reflexivity.
  - intros Hauth Hdb Hfault.
    unfold deployment_task, try_catch, bind, await, console_error, ret.
    fold (failure_patch e).
    rewrite (updateDeployment_hit env (deploymentId j) (failure_patch e)
               (add_console
                  (ConsoleError
                     ("Deployment failed for " ++ j_projectName j ++ ":") e)
                  w)
               (userId r) r Hauth Hdb Hfault Hnodup Hin Hid eq_refl).
    exists (apply_patch (failure_patch e) (now env) r).
    split; [|split; [reflexivity|split;
                       [reflexivity | apply apply_patch_patched]]].
    unfold find_row. simpl.
    rewrite find_id_map
      by (intro x; now destruct (owned_by (deploymentId j) (userId r) x)).
    rewrite Hfind. simpl.
    replace (owned_by (deploymentId j) (userId r) r) with true
      by (symmetry; apply owned_by_spec; auto).
    reflexivity.
  - intros Hfail.
    destruct (updateDeployment_throws env (deploymentId j) (failure_patch e)
                (add_console
                   (ConsoleError
                      ("Deployment failed for " ++ j_projectName j ++ ":") e)
                   w) Hfail)
      as [ue [pre Hthrows]].
    unfold deployment_task, try_catch, bind, await, console_error, ret.
    fold (failure_patch e).
    rewrite Hthrows. simpl.
    split; [reflexivity|]. split.
    + unfold status_of, find_row. simpl. now rewrite Hfind.
    + exists ue. apply last_last.
Qed.

Lemma job_failure_reconciled_never_rethrown_witness :
  fst (deployment_task (env_of "alice" 12) my_app_job (Throw build_failed)
         my_app_started) = Return tt /\
  exists r',
    find_row 0
      (snd (deployment_task (env_of "alice" 12) my_app_job
              (Throw build_failed) my_app_started)) = Some r' /\
    status r' = failed /\ error r' = Some "Build failed".
Proof.
  destruct (job_failure_reconciled_never_rethrown (env_of "alice" 12)
              my_app_job build_failed my_app_started my_app_row
              (proj1 my_app_started_store_ok) (or_introl eq_refl) eq_refl)
    as [Hreturns [Hreconciled _]].
  split; [exact Hreturns|].
  destruct (Hreconciled eq_refl eq_refl eq_refl)
    as [r' [Hfound [Hstatus [Herror _]]]].
  exists r'. repeat split; assumption.
Defined.

(** With a valid name, when the record cannot be created (no principal, no
    database handle, or the insert rejects), [initiateDeployment] answers
    [success = false], writes no row and starts no task. *)
Lemma initiateDeployment_store_refuses
    (validateProjectName : FormValue -> Validation) (SHIPKIT_REPO : string)
    (env : Env) (formData : FormData) (s : string) (w : World) :
  formData_get formData "projectName" = FormString s ->
  isValid (validateProjectName (FormString s)) = true ->
  auth env = None \/ db env = false \/ fault_insert env <> None ->
  exists res,
    fst (initiateDeployment validateProjectName SHIPKIT_REPO env formData w)
      = Return res /\
    success res = false /\
    rows (snd (initiateDeployment validateProjectName SHIPKIT_REPO env
                 formData w)) = rows w /\
    jobs (snd (initiateDeployment validateProjectName SHIPKIT_REPO env
                 formData w)) = jobs w.
Proof.
  intros Hget Hvalid Hrefuses.
  unfold initiateDeployment. rewrite Hget, Hvalid.
  cbv beta iota zeta delta [negb]. unfold_actions.
  destruct (auth env) as [uid|].
  - destruct (db env); simpl.
    + destruct (fault_insert env); simpl.
      * eexists. repeat split; reflexivity.
      * destruct Hrefuses as [?|[?|Habs]]; try discriminate. now elim Habs.
    + eexists. repeat split; reflexivity.
  - eexists. repeat split; reflexivity.
Qed.

(** Without a session the valid name [my-app] is refused with
    [Unauthorized], and the table stays empty. *)
Example initiateDeployment_anonymous :
  fst (initiateDeployment sampleValidateProjectName sampleRepo
         (env_anonymous 10) my_app_form empty_world)
  = Return (mkResult false None (Some "Unauthorized") None) /\
  rows (snd (initiateDeployment sampleValidateProjectName sampleRepo
               (env_anonymous 10) my_app_form empty_world)) = [].
Proof. split; reflexivity. Qed.

(** The scenario of the spec: [my-app] is started, the job throws ["Build
    failed"], the record ends [failed] with that text. *)
Example build_failed_scenario :
  option_map (fun r => (status r, error r))
    (find_row 3
       (run sampleValidateProjectName sampleRepo build_failed_trace
          empty_world))
  = Some (failed, Some "Build failed").
Proof. reflexivity. Qed.

(* ================================================================== *)
(** ** Further properties of the server actions *)

(* ------------------------------------------------------------------ *)
(** *** Writes stay within the caller's rows *)

Lemma of_user_other_not_owned (other uid : string) (i : nat)
    (r : Deployment) :
  other <> uid -> owned_by i uid r = true -> of_user other r = false.
Proof.
  intros Hother Hown. apply owned_by_spec in Hown. destruct Hown as [_ Hu].
  unfold of_user. apply String.eqb_neq. congruence.
Qed.

Lemma rewrite_keeps_other_owner (other uid : string) (i : nat)
    (data : Patch) (t : Z) (l : list Deployment) :
  other <> uid ->
  filter (of_user other)
    (map (fun r => if owned_by i uid r then apply_patch data t r else r) l)
  = filter (of_user other) l.
Proof.
  intro Hother. induction l as [|x l IH]; simpl; [reflexivity|].
  destruct (owned_by i uid x) eqn:Hown.
  - change (of_user other (apply_patch data t x)) with (of_user other x).
    now rewrite (of_user_other_not_owned other uid i x Hother Hown).
  - destruct (of_user other x); now rewrite IH.
Qed.

Lemma removal_keeps_other_owner (other uid : string) (i : nat)
    (l : list Deployment) :
  other <> uid ->
  filter (of_user other) (filter (fun r => negb (owned_by i uid r)) l)
  = filter (of_user other) l.
Proof.
  intro Hother. induction l as [|x l IH]; simpl; [reflexivity|].
  destruct (owned_by i uid x) eqn:Hown; simpl.
  - now rewrite (of_user_other_not_owned other uid i x Hother Hown).
  - destruct (of_user other x); now rewrite IH.
Qed.

Lemma insert_keeps_other_owner (other uid : string) (env : Env) (n : nat)
    (vs : list NewDeployment) (l : list Deployment) :
  other <> uid -> Forall (fun v => n_userId v = uid) vs ->
  filter (of_user other) (l ++ number_rows env n vs) = filter (of_user other) l.
Proof.
  intros Hother Hvs. rewrite filter_app.
  rewrite (filter_none (of_user other) (number_rows env n vs)).
  - apply app_nil_r.
  - revert n. induction Hvs as [|v vs Hv _ IH]; intros n x Hx;
      [contradiction|].
    destruct Hx as [<-|Hx]; [|exact (IH _ _ Hx)].
    unfold of_user. simpl. apply String.eqb_neq. congruence.
Qed.

Section Isolation.

Variable validateProjectName : FormValue -> Validation.
Variable SHIPKIT_REPO : string.

(** X1.  Whatever the operation and whatever the collaborators answer, a
    call made in the session of one principal, or with no session at all,
    leaves the rows of every other owner exactly as they were: same rows,
    same values, same order. *)
Theorem other_owners_rows_untouched :
  forall (env : Env) (op : Op) (w : World) (other : string),
    auth env <> Some other ->
    filter (of_user other)
      (rows (step validateProjectName SHIPKIT_REPO env op w))
    = filter (of_user other) (rows w).
Proof.
  intros env op w other Hother.
  assert (Huid : forall uid, auth env = Some uid -> other <> uid)
    by (intros uid Huid ->; now apply Hother).
  destruct op as [formData|n outcome| |i data|i|]; simpl.
  - (* Initiate *)
    unfold initiateDeployment.
    destruct (isValid _); simpl; [|reflexivity].
    destruct (formData_get formData "projectName") as [|s|];
      try reflexivity.
    unfold_actions.
    destruct (auth env) as [uid|]; [|reflexivity].
    destruct (db env); simpl; [|reflexivity].
    destruct (fault_insert env); simpl; [reflexivity|].
    apply (insert_keeps_other_owner other uid env (next_id w)
             [with_user
                (mkDeploymentData (trim s)
                   (Some ("Deployment of " ++ trim s)) None None None None
                   deploying None) uid]);
      [now apply Huid | now repeat constructor].
  - (* Settle *)
    destruct (nth_error (jobs w) n) as [j|]; [|reflexivity].
    unfold deployment_task. unfold_actions.
    destruct outcome as [result|e]; simpl; [reflexivity|].
    destruct (auth env) as [uid|]; [|reflexivity].
    destruct (db env); simpl; [|reflexivity].
    destruct (fault_update env); simpl; [reflexivity|].
    destruct (hd_error _); simpl;
      apply rewrite_keeps_other_owner; now apply Huid.
  - (* ListOwn *)
    unfold_actions.
    destruct (auth env) as [uid|]; [|reflexivity].
    destruct (db env); simpl; [|reflexivity].
    now destruct (fault_select env).
  - (* Update *)
    unfold_actions.
    destruct (auth env) as [uid|]; [|reflexivity].
    destruct (db env); simpl; [|reflexivity].
    destruct (fault_update env); simpl; [reflexivity|].
    destruct (hd_error _); simpl;
      apply rewrite_keeps_other_owner; now apply Huid.
  - (* Delete *)
    unfold_actions.
    destruct (auth env) as [uid|]; [|reflexivity].
    destruct (db env); simpl; [|reflexivity].
    destruct (fault_delete env); simpl; [reflexivity|].
    apply removal_keeps_other_owner. now apply Huid.
  - (* Seed *)
    unfold_actions.
    destruct (auth env) as [uid|]; [|reflexivity].
    destruct (db env); simpl; [|reflexivity].
    destruct (fault_select env); simpl; [reflexivity|].
    destruct (Nat.ltb 0 _); simpl; [reflexivity|].
    destruct (fault_insert env); simpl; [reflexivity|].
    apply (insert_keeps_other_owner other uid env (next_id w)
             (demoDeployments uid));
      [now apply Huid | now repeat constructor].
Qed.

(** X2.  Across any one operation, on a table with unique ids, a record
    that is still there has the [id], the [userId] and the [createdAt] it
    had before: no action rewrites the identity, the owner or the creation
    time of a record. *)
Theorem identity_owner_creation_never_change :
  forall (env : Env) (op : Op) (w : World) (i : nat) (r r' : Deployment),
    store_ok w ->
    find_row i w = Some r ->
    find_row i (step validateProjectName SHIPKIT_REPO env op w) = Some r' ->
    id r' = id r /\ userId r' = userId r /\ createdAt r' = createdAt r.
Proof.
  intros env op w i r r' [Hnodup _] Hr Hr'. unfold find_row in *.
  destruct (step_effect validateProjectName SHIPKIT_REPO env op w)
    as [Hrows _|vs Hrows _ _|i' uid data Hrows _ _ _|i' uid Hrows _];
    rewrite Hrows in Hr'.
  - rewrite Hr in Hr'. injection Hr' as <-. auto.
  - rewrite (find_id_app i _ _ r Hr) in Hr'. injection Hr' as <-. auto.
  - rewrite find_id_map in Hr'
      by (intro x; now destruct (owned_by i' uid x)).
    rewrite Hr in Hr'. simpl in Hr'. injection Hr' as <-.
    destruct (owned_by i' uid r); auto.
  - rewrite (find_id_filter i _ _ r r' Hnodup Hr Hr'). auto.
Qed.

End Isolation.

Lemma other_owners_rows_untouched_witness :
  filter (of_user "alice")
    (rows (step sampleValidateProjectName sampleRepo (env_of "bob" 6)
             (Delete 0) seeded_alice))
  = rows seeded_alice.
Proof.
  exact (other_owners_rows_untouched sampleValidateProjectName sampleRepo
           (env_of "bob" 6) (Delete 0) seeded_alice "alice"
           ltac:(discriminate)).
Defined.

Lemma identity_owner_creation_never_change_witness :
  exists r',
    find_row 2
      (step sampleValidateProjectName sampleRepo (env_of "alice" 30)
         (Update 2 clear_description) seeded_alice) = Some r' /\
    id r' = 2 /\ userId r' = "alice" /\ createdAt r' = 5%Z.
Proof.
  eexists. split; [reflexivity|].
  exact (identity_owner_creation_never_change sampleValidateProjectName
           sampleRepo (env_of "alice" 30) (Update 2 clear_description)
           seeded_alice 2 _ _ seeded_alice_store_ok eq_refl eq_refl).
Defined.

(* ------------------------------------------------------------------ *)
(** *** Failing calls *)

(** X3.  [createDeployment] is all or nothing.  When it returns a row, that
    row was appended to the table, belongs to the session's principal,
    carries a fresh id and the time of the call in both timestamps, and the
    listing was invalidated once.  When it throws, the table, the statements
    sent and the invalidation signals are what they were: no partial record
    is left behind and nothing is invalidated. *)
Theorem createDeployment_all_or_nothing :
  forall (env : Env) (data : DeploymentData) (w : World),
    match fst (createDeployment env data w) with
    | Return r =>
        rows (snd (createDeployment env data w)) = (rows w ++ [r])%list /\
        auth env = Some (userId r) /\ id r = next_id w /\
        createdAt r = now env /\ updatedAt r = now env /\
        status r = c_status data /\ projectName r = c_projectName data /\
        revalidated (snd (createDeployment env data w))
          = (revalidated w ++ ["/deployments"])%list
    | Throw e =>
        rows (snd (createDeployment env data w)) = rows w /\
        stmts (snd (createDeployment env data w)) = stmts w /\
        revalidated (snd (createDeployment env data w)) = revalidated w
    end.
Proof.
  intros env data w. unfold_actions.
  destruct (auth env) as [uid|]; [|now repeat split].
  destruct (db env); simpl; [|now repeat split].
  destruct (fault_insert env); simpl; now repeat split.
Qed.

(** X4.  The four store actions throw nothing but their own errors:
    [Unauthorized], [Database not available], or the action's fixed
    message.  Whatever the database rejects with is written to the console,
    as the last line and under the action's label, and never reaches the
    caller; the two guards throw without writing to the console. *)
Theorem store_actions_throw_only_their_own_errors :
  forall (env : Env) (w : World) (e : Thrown),
    (fst (getUserDeployments env w) = Throw e ->
     throws_own_error env w (snd (getUserDeployments env w))
       (fault_select env)
       "Failed to fetch deployments:" "Failed to fetch deployments" e) /\
    (forall data,
       fst (createDeployment env data w) = Throw e ->
       throws_own_error env w (snd (createDeployment env data w))
         (fault_insert env)
         "Failed to create deployment:" "Failed to create deployment" e) /\
    (forall i data,
       fst (updateDeployment env i data w) = Throw e ->
       throws_own_error env w (snd (updateDeployment env i data w))
         (fault_update env)
         "Failed to update deployment:" "Failed to update deployment" e) /\
    (forall i,
       fst (deleteDeployment env i w) = Throw e ->
       throws_own_error env w (snd (deleteDeployment env i w))
         (fault_delete env)
         "Failed to delete deployment:" "Failed to delete deployment" e).
Proof.
  intros env w e. unfold throws_own_error.
  repeat split; intros; revert H; unfold_actions;
    (destruct (auth env) as [uid|];
     [|intros [= <-]; left; repeat split]);
    (destruct (db env); simpl;
     [|intros [= <-]; right; left; repeat split]).
  - destruct (fault_select env) as [cause|]; simpl; [|discriminate].
    intros [= <-]. right. right. split; [reflexivity|]. now exists cause.
  - destruct (fault_insert env) as [cause|]; simpl; [|discriminate].
    intros [= <-]. right. right. split; [reflexivity|]. now exists cause.
  - destruct (fault_update env) as [cause|]; simpl;
      [|destruct (hd_error _); discriminate].
    intros [= <-]. right. right. split; [reflexivity|]. now exists cause.
  - destruct (fault_delete env) as [cause|]; simpl; [|discriminate].
    intros [= <-]. right. right. split; [reflexivity|]. now exists cause.
Qed.

Lemma store_actions_throw_only_their_own_errors_witness :
  fst (createDeployment env_insert_down
         (mkDeploymentData "my-app" None None None None None deploying None)
         empty_world)
    = Throw (JsError "Failed to create deployment") /\
  console
    (snd (createDeployment env_insert_down
            (mkDeploymentData "my-app" None None None None None deploying
               None)
            empty_world))
  = [ConsoleError "Failed to create deployment:" (JsError "connection lost")].
Proof.
  split; [reflexivity|].
  destruct (proj1 (proj2 (store_actions_throw_only_their_own_errors
                            env_insert_down empty_world
                            (JsError "Failed to create deployment")))
              (mkDeploymentData "my-app" None None None None None deploying
                 None)
              eq_refl)
    as [[Habs _]|[[Habs _]|[_ [cause [Hcause Hconsole]]]]];
    [discriminate Habs | discriminate Habs |].
  injection Hcause as <-. exact Hconsole.
Defined.

Section Refusals.

Variable validateProjectName : FormValue -> Validation.
Variable SHIPKIT_REPO : string.

(** X5.  When the form holds a text under [projectName],
    [initiateDeployment] never throws: it returns a result, and a result
    with [success = false] carries either the validator's error or one of
    [Unauthorized], [Database not available], [Failed to create
    deployment]. *)
Theorem initiateDeployment_reports_failures_in_result :
  forall (env : Env) (formData : FormData) (s : string) (w : World),
    formData_get formData "projectName" = FormString s ->
    exists res,
      fst (initiateDeployment validateProjectName SHIPKIT_REPO env formData w)
        = Return res /\
      (success res = true \/
       success res = false /\
       (isValid (validateProjectName (FormString s)) = false /\
        r_error res = v_error (validateProjectName (FormString s)) \/
        r_error res = Some "Unauthorized" \/
        r_error res = Some "Database not available" \/
        r_error res = Some "Failed to create deployment")).
Proof.
  intros env formData s w Hget. unfold initiateDeployment. rewrite Hget.
  destruct (isValid (validateProjectName (FormString s))); simpl.
  - unfold_actions.
    destruct (auth env) as [uid|]; [|eexists; split; [reflexivity|tauto]].
    destruct (db env); simpl; [|eexists; split; [reflexivity|tauto]].
    destruct (fault_insert env); simpl; eexists; (split; [reflexivity|]);
      simpl; tauto.
  - eexists. split; [reflexivity|]. simpl. tauto.
Qed.

(** X6.  Without a principal, or without a database handle, no operation
    sends a statement to the database: the table, the id counter, the
    statements sent and the invalidation signals are unchanged. *)
Theorem no_session_or_no_database_no_statement :
  forall (env : Env) (op : Op) (w : World),
    auth env = None \/ db env = false ->
    rows (step validateProjectName SHIPKIT_REPO env op w) = rows w /\
    next_id (step validateProjectName SHIPKIT_REPO env op w) = next_id w /\
    stmts (step validateProjectName SHIPKIT_REPO env op w) = stmts w /\
    revalidated (step validateProjectName SHIPKIT_REPO env op w)
      = revalidated w.
Proof.
  intros env op w Hno.
  destruct op as [formData|n outcome| |i data|i|]; simpl.
  - unfold initiateDeployment.
    destruct (isValid _); simpl; [|now repeat split].
    destruct (formData_get formData "projectName") as [|s|];
      try now repeat split.
    unfold_actions.
    destruct (auth env) as [uid|]; [|now repeat split].
    destruct (db env); simpl; [|now repeat split].
    destruct Hno; discriminate.
  - destruct (nth_error (jobs w) n) as [j|]; [|now repeat split].
    unfold deployment_task. unfold_actions.
    destruct outcome as [result|e]; simpl; [now repeat split|].
    destruct (auth env) as [uid|]; [|now repeat split].
    destruct (db env); simpl; [|now repeat split].
    destruct Hno; discriminate.
  - unfold_actions.
    destruct (auth env) as [uid|]; [|now repeat split].
    destruct (db env); simpl; [|now repeat split].
    destruct Hno; discriminate.
  - unfold_actions.
    destruct (auth env) as [uid|]; [|now repeat split].
    destruct (db env); simpl; [|now repeat split].
    destruct Hno; discriminate.
  - unfold_actions.
    destruct (auth env) as [uid|]; [|now repeat split].
    destruct (db env); simpl; [|now repeat split].
    destruct Hno; discriminate.
  - unfold_actions.
    destruct (auth env) as [uid|]; [|now repeat split].
    destruct (db env); simpl; [|now repeat split].
    destruct Hno; discriminate.
Qed.

End Refusals.

Lemma initiateDeployment_reports_failures_in_result_witness :
  exists res,
    fst (initiateDeployment sampleValidateProjectName sampleRepo
           (env_anonymous 10) my_app_form empty_world) = Return res /\
    (success res = true \/
     success res = false /\
     (isValid (sampleValidateProjectName (FormString "my-app")) = false /\
      r_error res = v_error (sampleValidateProjectName (FormString "my-app"))
      \/ r_error res = Some "Unauthorized" \/
      r_error res = Some "Database not available" \/
      r_error res = Some "Failed to create deployment")).
Proof.
  exact (initiateDeployment_reports_failures_in_result
           sampleValidateProjectName sampleRepo (env_anonymous 10)
           my_app_form "my-app" empty_world eq_refl).
Defined.

Lemma no_session_or_no_database_no_statement_witness :
  rows (step sampleValidateProjectName sampleRepo (env_anonymous 8)
          (Delete 1) seeded_alice) = rows seeded_alice /\
  next_id (step sampleValidateProjectName sampleRepo (env_anonymous 8)
             (Delete 1) seeded_alice) = next_id seeded_alice /\
  stmts (step sampleValidateProjectName sampleRepo (env_anonymous 8)
           (Delete 1) seeded_alice) = stmts seeded_alice /\
  revalidated (step sampleValidateProjectName sampleRepo (env_anonymous 8)
                 (Delete 1) seeded_alice) = revalidated seeded_alice.
Proof.
  exact (no_session_or_no_database_no_statement sampleValidateProjectName
           sampleRepo (env_anonymous 8) (Delete 1) seeded_alice
           (or_introl eq_refl)).
Defined.

(* ------------------------------------------------------------------ *)
(** *** Deleting, and what follows a delete *)

Lemma same_id_same_row (l : list Deployment) (x y : Deployment) :
  NoDup (map id l) -> In x l -> In y l -> id x = id y -> x = y.
Proof.
  intros Hnodup Hx Hy Hid.
  pose proof (find_id_unique l x Hnodup Hx) as Hfx.
  pose proof (find_id_unique l y Hnodup Hy) as Hfy.
  rewrite Hid in Hfx. congruence.
Qed.

Lemma deleteDeployment_returns (env : Env) (i : nat) (w : World)
    (uid : string) :
  auth env = Some uid -> db env = true -> fault_delete env = None ->
  deleteDeployment env i w =
    (Return true,
     add_revalidated "/deployments"
       (add_stmt SqlDelete
          (set_rows (filter (fun r => negb (owned_by i uid r)) (rows w)) w))).
Proof.
  intros Hauth Hdb Hfault. unfold_actions.
  rewrite Hauth, Hdb, Hfault. reflexivity.
Qed.

Lemma length_filter_split (p : Deployment -> bool) (l : list Deployment) :
  List.length (filter (fun r => negb (p r)) l) + List.length (filter p l)
  = List.length l.
Proof.
  induction l as [|x l IH]; simpl; [reflexivity|].
  destruct (p x); simpl; lia.
Qed.

(** X7.  Deleting a record the caller owns, on a table with unique ids,
    removes that record and nothing else: the table is one row shorter, no
    row carries the id any more, every other row is still there, and the
    listing is invalidated. *)
Theorem deleteDeployment_removes_exactly_the_owned_record :
  forall (env : Env) (i : nat) (w : World) (uid : string) (r : Deployment),
    auth env = Some uid -> db env = true -> fault_delete env = None ->
    NoDup (map id (rows w)) ->
    In r (rows w) -> id r = i -> userId r = uid ->
    fst (deleteDeployment env i w) = Return true /\
    find_row i (snd (deleteDeployment env i w)) = None /\
    (forall x,
       In x (rows (snd (deleteDeployment env i w)))
       <-> In x (rows w) /\ x <> r) /\
    List.length (rows (snd (deleteDeployment env i w))) + 1
      = List.length (rows w) /\
    revalidated (snd (deleteDeployment env i w))
      = (revalidated w ++ ["/deployments"])%list.
Proof.
  intros env i w uid r Hauth Hdb Hfault Hnodup Hin Hi Hu.
  rewrite (deleteDeployment_returns env i w uid Hauth Hdb Hfault).
  simpl fst. simpl snd.
  assert (Hkept :
            forall x,
              In x (filter (fun r => negb (owned_by i uid r)) (rows w))
              <-> In x (rows w) /\ x <> r).
  { intro x. rewrite filter_In, negb_true_iff. split.
    - intros [Hx Hown]. split; [exact Hx|]. intros ->.
      assert (owned_by i uid r = true) by (apply owned_by_spec; auto).
      congruence.
    - intros [Hx Hneq]. split; [exact Hx|].
      destruct (owned_by i uid x) eqn:Hown; [|reflexivity].
      apply owned_by_spec in Hown. destruct Hown as [Hxi _].
      elim Hneq. apply (same_id_same_row (rows w)); congruence. }
  split; [reflexivity|]. split; [|split; [exact Hkept|split]].
  - unfold find_row. simpl.
    destruct (find _ _) as [x|] eqn:Hfind; [|reflexivity].
    apply find_some in Hfind. destruct Hfind as [Hx Hxi].
    apply Nat.eqb_eq in Hxi. apply Hkept in Hx. destruct Hx as [Hx Hneq].
    elim Hneq. apply (same_id_same_row (rows w)); congruence.
  - simpl.
    rewrite <- (length_filter_split (owned_by i uid) (rows w)).
    now rewrite (filter_owned_unique _ r i uid Hnodup Hin Hi Hu).
  - reflexivity.
Qed.

Lemma deleteDeployment_removes_exactly_the_owned_record_witness :
  fst (deleteDeployment (env_of "alice" 8) 1 seeded_alice) = Return true /\
  find_row 1 (snd (deleteDeployment (env_of "alice" 8) 1 seeded_alice))
    = None /\
  List.length (rows (snd (deleteDeployment (env_of "alice" 8) 1
                            seeded_alice))) + 1 = 3.
Proof.
  destruct (deleteDeployment_removes_exactly_the_owned_record
              (env_of "alice" 8) 1 seeded_alice "alice"
              (nth 1 (rows seeded_alice) my_app_row)
              eq_refl eq_refl eq_refl (proj1 seeded_alice_store_ok)
              (or_intror (or_introl eq_refl)) eq_refl eq_refl)
    as [Hret [Hgone [_ [Hlen _]]]].
  split; [exact Hret|]. split; [exact Hgone | exact Hlen].
Defined.

Lemma filter_not_owned_twice (i : nat) (uid : string)
    (l : list Deployment) :
  filter (owned_by i uid) (filter (fun r => negb (owned_by i uid r)) l) = [].
Proof.
  apply filter_none. intros x Hx. apply filter_In in Hx.
  destruct Hx as [_ Hx]. now apply negb_true_iff.
Qed.

(** X8.  After a delete that returned, the record is gone for its owner:
    a further [updateDeployment] of the same id answers [null] and changes
    no row, and a further [deleteDeployment] of the same id changes no
    row either. *)
Theorem deleted_record_stays_gone :
  forall (env env2 : Env) (i : nat) (data : Patch) (w : World)
         (uid : string),
    auth env = Some uid -> db env = true -> fault_delete env = None ->
    auth env2 = Some uid -> db env2 = true ->
    fault_update env2 = None -> fault_delete env2 = None ->
    fst (updateDeployment env2 i data (snd (deleteDeployment env i w)))
      = Return None /\
    rows (snd (updateDeployment env2 i data (snd (deleteDeployment env i w))))
      = rows (snd (deleteDeployment env i w)) /\
    rows (snd (deleteDeployment env2 i (snd (deleteDeployment env i w))))
      = rows (snd (deleteDeployment env i w)).
Proof.
  intros env env2 i data w uid Hauth Hdb Hfault Hauth2 Hdb2 Hfu2 Hfd2.
  rewrite (deleteDeployment_returns env i w uid Hauth Hdb Hfault).
  simpl snd.
  rewrite (deleteDeployment_returns env2 i _ uid Hauth2 Hdb2 Hfd2).
  assert (Hnone :
            forall x,
              In x (filter (fun r => negb (owned_by i uid r)) (rows w)) ->
              owned_by i uid x = false).
  { intros x Hx. apply filter_In in Hx. now apply negb_true_iff. }
  unfold_actions. rewrite Hauth2, Hdb2, Hfu2. simpl.
  rewrite filter_not_owned_twice. simpl.
  split; [reflexivity|]. split.
  - rewrite <- (map_id (filter _ (rows w))) at 2. apply map_ext_in.
    intros x Hx. now rewrite (Hnone x Hx).
  - apply filter_all. intros x Hx. now rewrite (Hnone x Hx).
Qed.

Lemma deleted_record_stays_gone_witness :
  fst (updateDeployment (env_of "alice" 9) 1 clear_description
         (snd (deleteDeployment (env_of "alice" 8) 1 seeded_alice)))
    = Return None /\
  rows (snd (updateDeployment (env_of "alice" 9) 1 clear_description
               (snd (deleteDeployment (env_of "alice" 8) 1 seeded_alice))))
    = rows (snd (deleteDeployment (env_of "alice" 8) 1 seeded_alice)) /\
  rows (snd (deleteDeployment (env_of "alice" 9) 1
               (snd (deleteDeployment (env_of "alice" 8) 1 seeded_alice))))
    = rows (snd (deleteDeployment (env_of "alice" 8) 1 seeded_alice)).
Proof.
  exact (deleted_record_stays_gone (env_of "alice" 8) (env_of "alice" 9) 1
           clear_description seeded_alice "alice"
           eq_refl eq_refl eq_refl eq_refl eq_refl eq_refl eq_refl).
Defined.

(** X9.  Creating a record and then deleting the id that came back restores
    the table: on a table whose ids are below the counter, the rows after
    the two calls are the rows before them. *)
Theorem create_then_delete_restores_the_table :
  forall (env env2 : Env) (data : DeploymentData) (w : World)
         (uid : string),
    auth env = Some uid -> db env = true -> fault_insert env = None ->
    auth env2 = Some uid -> db env2 = true -> fault_delete env2 = None ->
    store_ok w ->
    exists r,
      fst (createDeployment env data w) = Return r /\
      In r (rows (snd (createDeployment env data w))) /\
      rows (snd (deleteDeployment env2 (id r)
                   (snd (createDeployment env data w))))
        = rows w.
Proof.
  intros env env2 data w uid Hauth Hdb Hfi Hauth2 Hdb2 Hfd2 [_ Hbelow].
  rewrite (createDeployment_inserts env data w uid Hauth Hdb Hfi).
  exists (new_row env (next_id w) (with_user data uid)).
  split; [reflexivity|]. simpl snd. split.
  - simpl. apply in_or_app. right. now left.
  - rewrite (deleteDeployment_returns env2 _ _ uid Hauth2 Hdb2 Hfd2).
    simpl. rewrite filter_app. simpl.
    unfold owned_by at 2. simpl. rewrite Nat.eqb_refl, String.eqb_refl.
    simpl. rewrite app_nil_r. apply filter_all.
    intros x Hx. apply negb_true_iff.
    destruct (owned_by (next_id w) uid x) eqn:Hown; [|reflexivity].
    apply owned_by_spec in Hown. destruct Hown as [Hxi _].
    rewrite Forall_forall in Hbelow. specialize (Hbelow x Hx). lia.
Qed.

Lemma create_then_delete_restores_the_table_witness :
  exists r,
    fst (createDeployment (env_of "alice" 10)
           (mkDeploymentData "my-app" None None None None None deploying None)
           seeded_alice) = Return r /\
    In r (rows (snd (createDeployment (env_of "alice" 10)
                       (mkDeploymentData "my-app" None None None None None
                          deploying None)
                       seeded_alice))) /\
    rows (snd (deleteDeployment (env_of "alice" 11) (id r)
                 (snd (createDeployment (env_of "alice" 10)
                         (mkDeploymentData "my-app" None None None None None
                            deploying None)
                         seeded_alice))))
      = rows seeded_alice.
Proof.
  exact (create_then_delete_restores_the_table (env_of "alice" 10)
           (env_of "alice" 11)
           (mkDeploymentData "my-app" None None None None None deploying None)
           seeded_alice "alice" eq_refl eq_refl eq_refl eq_refl eq_refl
           eq_refl seeded_alice_store_ok).
Defined.

(* ------------------------------------------------------------------ *)
(** *** Invalidation signals *)

(** X10.  Which calls invalidate the listing.  Reading the listing and
    seeding the demo records never do, whatever happens.  An update does
    exactly when it returns a row, not when it answers [null] or throws.  A
    delete does whenever it returns, also when it removed nothing, and not
    when it throws. *)
Theorem invalidation_follows_the_outcome :
  forall (env : Env) (w : World),
    revalidated (snd (getUserDeployments env w)) = revalidated w /\
    revalidated (snd (initializeDemoDeployments env w)) = revalidated w /\
    (forall i data,
       revalidated (snd (updateDeployment env i data w))
       = match fst (updateDeployment env i data w) with
         | Return (Some _) => (revalidated w ++ ["/deployments"])%list
         | _ => revalidated w
         end) /\
    (forall i,
       revalidated (snd (deleteDeployment env i w))
       = match fst (deleteDeployment env i w) with
         | Return _ => (revalidated w ++ ["/deployments"])%list
         | Throw _ => revalidated w
         end).
Proof.
  intros env w. unfold_actions.
  destruct (auth env) as [uid|]; [|now repeat split].
  destruct (db env); simpl; [|now repeat split].
  split; [now destruct (fault_select env)|]. split.
  - destruct (fault_select env); simpl; [reflexivity|].
    destruct (Nat.ltb 0 _); simpl; [reflexivity|].
    now destruct (fault_insert env).
  - split.
    + intros i data. destruct (fault_update env); simpl; [reflexivity|].
      now destruct (hd_error _).
    + intro i. now destruct (fault_delete env).
Qed.

(* ------------------------------------------------------------------ *)
(** *** Trimming *)

Lemma text_app_assoc (a b c : string) : (a ++ b) ++ c = a ++ (b ++ c).
Proof. induction a as [|x a IH]; simpl; [reflexivity | now rewrite IH]. Qed.

Lemma text_app_empty (a : string) : a ++ "" = a.
Proof. induction a as [|x a IH]; simpl; [reflexivity | now rewrite IH]. Qed.

Lemma text_app_length (a b : string) :
  String.length (a ++ b) = String.length a + String.length b.
Proof. induction a as [|x a IH]; simpl; [reflexivity | now rewrite IH]. Qed.

Lemma bytes_of_app (a b : string) :
  list_ascii_of_string (a ++ b)
  = (list_ascii_of_string a ++ list_ascii_of_string b)%list.
Proof. induction a as [|x a IH]; simpl; [reflexivity | now rewrite IH]. Qed.

Lemma text_of_app (l m : list ascii) :
  string_of_list_ascii (l ++ m)
  = string_of_list_ascii l ++ string_of_list_ascii m.
Proof. induction l as [|x l IH]; simpl; [reflexivity | now rewrite IH]. Qed.

Lemma reverse_app (a b : string) : reverse (a ++ b) = reverse b ++ reverse a.
Proof.
  unfold reverse. now rewrite bytes_of_app, rev_app_distr, text_of_app.
Qed.

Lemma reverse_reverse (a : string) : reverse (reverse a) = a.
Proof.
  unfold reverse.
  now rewrite list_ascii_of_string_of_list_ascii, rev_involutive,
    string_of_list_ascii_of_string.
Qed.

Lemma reverse_length (a : string) :
  String.length (reverse a) = String.length a.
Proof.
  induction a as [|x a IH]; [reflexivity|].
  change (String x a) with (String x "" ++ a).
  rewrite reverse_app, !text_app_length, IH. simpl. lia.
Qed.

Lemma strip_prefix_splits (p s rest : string) :
  strip_prefix p s = Some rest -> s = p ++ rest.
Proof.
  revert s. induction p as [|a p IH]; intros s H; simpl in *.
  - now injection H as ->.
  - destruct s as [|b s]; [discriminate|].
    destruct (Ascii.eqb_spec a b) as [->|]; [|discriminate].
    now rewrite (IH s H).
Qed.

Lemma strip_prefix_of_app (p rest : string) :
  strip_prefix p (p ++ rest) = Some rest.
Proof.
  induction p as [|a p IH]; simpl; [reflexivity|].
  now rewrite Ascii.eqb_refl.
Qed.

Lemma strip_any_splits (pats : list string) (s rest : string) :
  strip_any pats s = Some rest -> exists p, In p pats /\ s = p ++ rest.
Proof.
  induction pats as [|p pats IH]; simpl; [discriminate|].
  destruct (strip_prefix p s) as [r|] eqn:Hp.
  - intros [= <-]. exists p. split; [now left|].
    now apply strip_prefix_splits.
  - intro H. destruct (IH H) as [q [Hq Hs]]. exists q. split; [now right|].
    exact Hs.
Qed.

Lemma strip_any_longer_text (pats : list string) (a b : string) :
  strip_any pats (a ++ b) = None -> strip_any pats a = None.
Proof.
  induction pats as [|p pats IH]; simpl; [reflexivity|].
  destruct (strip_prefix p a) as [r|] eqn:Hp.
  - apply strip_prefix_splits in Hp. subst a.
    now rewrite text_app_assoc, strip_prefix_of_app.
  - destruct (strip_prefix p (a ++ b)); [discriminate | exact IH].
Qed.

Lemma strip_any_empty (pats : list string) :
  Forall (fun p => p <> "") pats -> strip_any pats "" = None.
Proof.
  induction 1 as [|p pats Hp _ IH]; simpl; [reflexivity|].
  destruct p; [now elim Hp | exact IH].
Qed.

Lemma strip_all_splits (fuel : nat) (pats : list string) (s : string) :
  exists lead, s = lead ++ strip_all fuel pats s /\ white_run pats lead.
Proof.
  revert s. induction fuel as [|fuel IH]; intro s; simpl.
  - exists "". split; [reflexivity | constructor].
  - destruct (strip_any pats s) as [rest|] eqn:Hs.
    + destruct (strip_any_splits pats s rest Hs) as [p [Hp ->]].
      destruct (IH rest) as [lead [Hrest Hlead]].
      exists (p ++ lead). split; [|now constructor].
      now rewrite text_app_assoc, <- Hrest.
    + exists "". split; [reflexivity | constructor].
Qed.

Lemma strip_all_done (fuel : nat) (pats : list string) (s : string) :
  Forall (fun p => p <> "") pats -> String.length s <= fuel ->
  strip_any pats (strip_all fuel pats s) = None.
Proof.
  intro Hpats. revert s. induction fuel as [|fuel IH]; intros s Hlen; simpl.
  - destruct s; [|simpl in Hlen; lia]. now apply strip_any_empty.
  - destruct (strip_any pats s) as [rest|] eqn:Hs; [|exact Hs].
    apply IH. destruct (strip_any_splits pats s rest Hs) as [p [Hp ->]].
    rewrite text_app_length in Hlen.
    rewrite Forall_forall in Hpats. specialize (Hpats p Hp).
    destruct p; [now elim Hpats|]. simpl in Hlen. lia.
Qed.

Lemma white_space_not_empty :
  Forall (fun p => p <> "") white_space /\
  Forall (fun p => p <> "") (map reverse white_space).
Proof. split; repeat constructor; discriminate. Qed.

Lemma white_run_then (pats : list string) (a p : string) :
  white_run pats a -> In p pats -> white_run pats (a ++ p).
Proof.
  induction 1 as [|q rest Hq _ IH]; intro Hp; simpl.
  - rewrite <- (text_app_empty p). now repeat constructor.
  - rewrite text_app_assoc. constructor; [exact Hq | now apply IH].
Qed.

Lemma white_run_reverse (a : string) :
  white_run (map reverse white_space) a -> white_run white_space (reverse a).
Proof.
  induction 1 as [|q rest Hq _ IH]; [constructor|].
  rewrite reverse_app. apply white_run_then; [exact IH|].
  apply in_map_iff in Hq. destruct Hq as [p [<- Hp]].
  now rewrite reverse_reverse.
Qed.

(** [trim] takes a run of white space off each end and leaves a text with
    no white space at either end. *)
Lemma trim_takes_the_white_space_off (s : string) :
  trimmed (trim s) /\
  exists lead trail,
    s = lead ++ trim s ++ trail /\
    white_run white_space lead /\ white_run white_space trail.
Proof.
  destruct white_space_not_empty as [Hws Hrev].
  unfold trim, trim_end.
  set (t := trim_start s).
  destruct (strip_all_splits (String.length s) white_space s)
    as [lead [Hs Hlead]].
  fold (trim_start s) in Hs. fold t in Hs.
  destruct (strip_all_splits (String.length t) (map reverse white_space)
              (reverse t)) as [tail [Ht Htail]].
  set (y := strip_all (String.length t) (map reverse white_space)
              (reverse t)) in *.
  assert (Hstart : strip_any white_space t = None)
    by (apply strip_all_done; [exact Hws | reflexivity]).
  assert (Hend : strip_any (map reverse white_space) y = None)
    by (apply strip_all_done; [exact Hrev | now rewrite reverse_length]).
  assert (Htext : t = reverse y ++ reverse tail).
  { rewrite <- (reverse_reverse t), Ht. apply reverse_app. }
  split; [split|].
  - apply (strip_any_longer_text white_space (reverse y) (reverse tail)).
    now rewrite <- Htext.
  - now rewrite reverse_reverse.
  - exists lead, (reverse tail). split; [|split].
    + now rewrite <- Htext.
    + exact Hlead.
    + now apply white_run_reverse.
Qed.

(** A name wrapped in a no-break space, a tab, a line separator and a
    byte-order mark is stored without them, inner spaces kept. *)
Example trim_unicode_white_space :
  trim (string_of_list_ascii (map ascii_of_nat [194; 160; 9])
          ++ "my app"
          ++ string_of_list_ascii
               (map ascii_of_nat [226; 128; 168; 239; 187; 191; 32]))
  = "my app".
Proof. reflexivity. Qed.

(* ------------------------------------------------------------------ *)
(** *** Tasks *)

Section Tasks.

Variable validateProjectName : FormValue -> Validation.
Variable SHIPKIT_REPO : string.

Lemma initiateDeployment_runs (env : Env) (formData : FormData) (s : string)
    (w : World) (uid : string) :
  formData_get formData "projectName" = FormString s ->
  isValid (validateProjectName (FormString s)) = true ->
  auth env = Some uid -> db env = true -> fault_insert env = None ->
  snd (initiateDeployment validateProjectName SHIPKIT_REPO env formData w)
  = set_jobs
      (jobs w
         ++ [mkJob SHIPKIT_REPO (trim s) ("Deployment of " ++ trim s)
               (next_id w)])%list
      (add_revalidated "/deployments"
         (add_stmt (SqlInsert 1)
            (set_next_id (next_id w + 1)
               (set_rows
                  (rows w
                     ++ [new_row env (next_id w)
                           (with_user
                              (mkDeploymentData (trim s)
                                 (Some ("Deployment of " ++ trim s)%string) None None
                                 None None deploying None)
                              uid)])%list
                  w)))).
Proof.
  intros Hget Hvalid Hauth Hdb Hfault.
  unfold initiateDeployment. rewrite Hget, Hvalid.
  cbv beta iota zeta delta [negb]. unfold try_catch, bind.
  rewrite (createDeployment_inserts env _ w uid Hauth Hdb Hfault).
  reflexivity.
Qed.

(** X11.  [initiateDeployment] does not deduplicate: two accepted
    submissions of the same form by the same owner append two records with
    different ids and status [deploying], and leave two more tasks pending.
    Both records carry the same name: the submitted text without the run
    of white space at each of its ends, so a text with no white space at
    either end. *)
Theorem initiateDeployment_twice_two_records :
  forall (env env2 : Env) (formData : FormData) (s : string) (w : World)
         (uid : string),
    formData_get formData "projectName" = FormString s ->
    isValid (validateProjectName (FormString s)) = true ->
    auth env = Some uid -> db env = true -> fault_insert env = None ->
    auth env2 = Some uid -> db env2 = true -> fault_insert env2 = None ->
    exists r1 r2,
      rows (snd (initiateDeployment validateProjectName SHIPKIT_REPO env2
                   formData
                   (snd (initiateDeployment validateProjectName SHIPKIT_REPO
                           env formData w))))
        = (rows w ++ [r1; r2])%list /\
      id r1 <> id r2 /\
      projectName r1 = trim s /\ projectName r2 = trim s /\
      projectName r1 = projectName r2 /\
      trimmed (projectName r1) /\
      (exists lead trail,
         s = lead ++ projectName r1 ++ trail /\
         white_run white_space lead /\ white_run white_space trail) /\
      status r1 = deploying /\ status r2 = deploying /\
      List.length
        (jobs (snd (initiateDeployment validateProjectName SHIPKIT_REPO env2
                      formData
                      (snd (initiateDeployment validateProjectName
                              SHIPKIT_REPO env formData w)))))
        = List.length (jobs w) + 2.
Proof.
  intros env env2 formData s w uid Hget Hvalid Hauth Hdb Hfault
         Hauth2 Hdb2 Hfault2.
  rewrite (initiateDeployment_runs env formData s w uid
             Hget Hvalid Hauth Hdb Hfault).
  rewrite (initiateDeployment_runs env2 formData s _ uid
             Hget Hvalid Hauth2 Hdb2 Hfault2).
  destruct (trim_takes_the_white_space_off s) as [Htrimmed Hparts].
  do 2 eexists. simpl.
  split; [rewrite <- app_assoc; reflexivity|].
  split; [simpl; lia|].
  do 3 (split; [reflexivity|]).
  split; [exact Htrimmed|]. split; [exact Hparts|].
  do 2 (split; [reflexivity|]).
  rewrite !length_app. simpl. lia.
Qed.

(** X12.  When the job of a pending task resolves, whatever
    [DeploymentResult] it resolves with, the task only writes one line to
    the console: the table is untouched, so the record is reconciled by the
    task only when the job throws.  The task leaves the pending list. *)
Theorem resolved_job_leaves_the_table :
  forall (env : Env) (n : nat) (result : DeploymentResult) (w : World)
         (j : Job),
    nth_error (jobs w) n = Some j ->
    rows (step validateProjectName SHIPKIT_REPO env
            (Settle n (Return result)) w) = rows w /\
    stmts (step validateProjectName SHIPKIT_REPO env
             (Settle n (Return result)) w) = stmts w /\
    jobs (step validateProjectName SHIPKIT_REPO env
            (Settle n (Return result)) w) = remove_nth n (jobs w) /\
    List.length
      (jobs (step validateProjectName SHIPKIT_REPO env
               (Settle n (Return result)) w)) + 1 = List.length (jobs w) /\
    console (step validateProjectName SHIPKIT_REPO env
               (Settle n (Return result)) w)
      = (console w
           ++ [ConsoleLog
                 ("Deployment process completed for " ++ j_projectName j)])%list.
Proof.
  intros env n result w j Hj. simpl. rewrite Hj. simpl.
  repeat split.
  unfold remove_nth. rewrite length_app, length_firstn, length_skipn.
  assert (n < List.length (jobs w))
    by (apply nth_error_Some; congruence).
  lia.
Qed.

Lemma step_tasks (env : Env) (op : Op) (w : World) :
  next_id w <= next_id (step validateProjectName SHIPKIT_REPO env op w) /\
  (jobs (step validateProjectName SHIPKIT_REPO env op w) = jobs w \/
   (exists n,
      jobs (step validateProjectName SHIPKIT_REPO env op w)
        = remove_nth n (jobs w)) \/
   (exists s,
      jobs (step validateProjectName SHIPKIT_REPO env op w)
        = (jobs w
             ++ [mkJob SHIPKIT_REPO (trim s) ("Deployment of " ++ trim s)
                   (next_id w)])%list /\
      next_id w < next_id (step validateProjectName SHIPKIT_REPO env op w))).
Proof.
  destruct op as [formData|n outcome| |i data|i|]; simpl.
  - unfold initiateDeployment.
    destruct (isValid _); simpl; [|auto].
    destruct (formData_get formData "projectName") as [|s|]; simpl; auto.
    unfold_actions.
    destruct (auth env) as [uid|]; [|auto].
    destruct (db env); simpl; [|auto].
    destruct (fault_insert env); simpl; [auto|].
    split; [lia|]. right. right. exists s. split; [reflexivity | lia].
  - destruct (nth_error (jobs w) n) as [j|]; [|auto].
    unfold deployment_task. unfold_actions.
    destruct outcome as [result|e]; simpl; [eauto|].
    destruct (auth env) as [uid|]; [|simpl; eauto].
    destruct (db env); simpl; [|eauto].
    destruct (fault_update env); simpl; [eauto|].
    destruct (hd_error _); simpl; eauto.
  - unfold_actions.
    destruct (auth env) as [uid|]; [|auto].
    destruct (db env); simpl; [|auto].
    destruct (fault_select env); auto.
  - unfold_actions.
    destruct (auth env) as [uid|]; [|auto].
    destruct (db env); simpl; [|auto].
    destruct (fault_update env); simpl; [auto|].
    destruct (hd_error _); auto.
  - unfold_actions.
    destruct (auth env) as [uid|]; [|auto].
    destruct (db env); simpl; [|auto].
    destruct (fault_delete env); auto.
  - unfold_actions.
    destruct (auth env) as [uid|]; [|auto].
    destruct (db env); simpl; [|auto].
    destruct (fault_select env); simpl; [auto|].
    destruct (Nat.ltb 0 _); simpl; [auto|].
    destruct (fault_insert env); simpl; [auto|].
    split; [lia | auto].
Qed.

Lemma Forall_remove_nth {A} (P : A -> Prop) (n : nat) (l : list A) :
  Forall P l -> Forall P (remove_nth n l).
Proof.
  intro H. revert n. induction H as [|x l Hx Hl IH]; intro n.
  - destruct n; constructor.
  - destruct n as [|n]; [exact Hl|].
    change (remove_nth (S n) (x :: l)) with (x :: remove_nth n l).
    constructor; [exact Hx | apply IH].
Qed.

Lemma run_tasks (trace : list (Env * Op)) (w : World) :
  Forall
    (fun j =>
       deploymentId j < next_id w /\ templateRepo j = SHIPKIT_REPO /\
       j_description j = "Deployment of " ++ j_projectName j)
    (jobs w) ->
  Forall
    (fun j =>
       deploymentId j
         < next_id (run validateProjectName SHIPKIT_REPO trace w) /\
       templateRepo j = SHIPKIT_REPO /\
       j_description j = "Deployment of " ++ j_projectName j)
    (jobs (run validateProjectName SHIPKIT_REPO trace w)).
Proof.
  revert w. induction trace as [|[env op] rest IH]; intros w Hall; simpl;
    [exact Hall|].
  apply IH.
  destruct (step_tasks env op w) as [Hnext Hjobs].
  assert (Hold :
            Forall
              (fun j =>
                 deploymentId j
                   < next_id
                       (step validateProjectName SHIPKIT_REPO env op w) /\
                 templateRepo j = SHIPKIT_REPO /\
                 j_description j = "Deployment of " ++ j_projectName j)
              (jobs w)).
  { eapply Forall_impl; [|exact Hall]. simpl. intros j [Hj Hrest].
    split; [lia | exact Hrest]. }
  destruct Hjobs as [->|[[n ->]|[s [-> Hlt]]]].
  - exact Hold.
  - now apply Forall_remove_nth.
  - apply Forall_app. split; [exact Hold|].
    constructor; [|constructor]. simpl. auto.
Qed.

(** X13.  In every world the operations can reach, each pending task was
    started for a record the table has created: its [deploymentId] is an id
    the table has handed out, its template is [SHIPKIT_REPO], and its
    description is ["Deployment of "] followed by its project name.  No
    task exists for a record whose insert failed. *)
Theorem pending_tasks_have_a_created_record :
  forall (w : World),
    reachable validateProjectName SHIPKIT_REPO w ->
    Forall
      (fun j =>
         deploymentId j < next_id w /\ templateRepo j = SHIPKIT_REPO /\
         j_description j = "Deployment of " ++ j_projectName j)
      (jobs w).
Proof.
  intros w [trace <-]. apply run_tasks. constructor.
Qed.

End Tasks.

Lemma initiateDeployment_twice_two_records_witness :
  exists r1 r2,
    rows (snd (initiateDeployment sampleValidateProjectName sampleRepo
                 (env_of "alice" 11) my_app_form my_app_started))
      = [r1; r2] /\
    id r1 <> id r2 /\ projectName r1 = "my-app" /\ projectName r2 = "my-app" /\
    trimmed (projectName r1).
Proof.
  destruct (initiateDeployment_twice_two_records sampleValidateProjectName
              sampleRepo (env_of "alice" 10) (env_of "alice" 11) my_app_form
              "my-app" empty_world "alice"
              eq_refl eq_refl eq_refl eq_refl eq_refl eq_refl eq_refl eq_refl)
    as [r1 [r2 [Hrows [Hids [Hn1 [Hn2 [_ [Htrimmed _]]]]]]]].
  exists r1, r2. repeat split; try assumption; apply Htrimmed.
Defined.

Lemma resolved_job_leaves_the_table_witness :
  rows (step sampleValidateProjectName sampleRepo (env_of "alice" 12)
          (Settle 0 (Return (mkResult false None (Some "quota") None)))
          my_app_started) = rows my_app_started /\
  status_of 0
    (step sampleValidateProjectName sampleRepo (env_of "alice" 12)
       (Settle 0 (Return (mkResult false None (Some "quota") None)))
       my_app_started) = Some deploying.
Proof.
  split; [|reflexivity].
  exact (proj1 (resolved_job_leaves_the_table sampleValidateProjectName
                  sampleRepo (env_of "alice" 12) 0
                  (mkResult false None (Some "quota") None) my_app_started
                  my_app_job eq_refl)).
Defined.

Lemma pending_tasks_have_a_created_record_witness :
  Forall
    (fun j =>
       deploymentId j < next_id my_app_started /\
       templateRepo j = sampleRepo /\
       j_description j = "Deployment of " ++ j_projectName j)
    (jobs my_app_started).
Proof.
  apply (pending_tasks_have_a_created_record sampleValidateProjectName
           sampleRepo my_app_started).
  exists [(env_of "alice" 10, Initiate my_app_form)]. reflexivity.
Defined.

(* ================================================================== *)
(** ** The onboarding wizard *)

Lemma obj_get_set_same (k : string) (v : bool) (o : Flags) :
  obj_get k (obj_set k v o) = Some v.
Proof.
  induction o as [|[k' v'] o IH]; simpl.
  - now rewrite String.eqb_refl.
  - destruct (String.eqb k' k) eqn:Hk; simpl.
    + now rewrite String.eqb_refl.
    + now rewrite Hk.
Qed.

Lemma obj_get_set_other (k k2 : string) (v : bool) (o : Flags) :
  k2 <> k -> obj_get k2 (obj_set k v o) = obj_get k2 o.
Proof.
  intro Hneq. induction o as [|[k' v'] o IH]; simpl.
  - now rewrite (proj2 (String.eqb_neq k k2)) by congruence.
  - destruct (String.eqb k' k) eqn:Hk; simpl.
    + apply String.eqb_eq in Hk. subst k'.
      now rewrite (proj2 (String.eqb_neq k k2)) by congruence.
    + destruct (String.eqb k' k2); [reflexivity | exact IH].
Qed.

Lemma obj_set_same_twice (k : string) (v : bool) (o : Flags) :
  obj_set k v (obj_set k v o) = obj_set k v o.
Proof.
  induction o as [|[k' v'] o IH]; simpl.
  - now rewrite String.eqb_refl.
  - destruct (String.eqb k' k) eqn:Hk; simpl.
    + now rewrite String.eqb_refl.
    + now rewrite Hk, IH.
Qed.

Lemma obj_set_again_after_other (k k2 : string) (v v2 : bool) (o : Flags) :
  k <> k2 ->
  obj_set k v (obj_set k2 v2 (obj_set k v o)) = obj_set k2 v2 (obj_set k v o).
Proof.
  intro Hneq.
  assert (Hkk2 : String.eqb k k2 = false) by now apply String.eqb_neq.
  assert (Hk2k : String.eqb k2 k = false)
    by (apply String.eqb_neq; congruence).
  induction o as [|[k' v'] o IH]; simpl.
  - rewrite Hkk2. simpl. rewrite String.eqb_refl. reflexivity.
  - destruct (String.eqb k' k) eqn:Hk; simpl.
    + rewrite Hkk2. simpl. now rewrite String.eqb_refl.
    + destruct (String.eqb k' k2) eqn:Hk2; simpl.
      * rewrite Hk2k. f_equal. apply String.eqb_eq in Hk2. subst k'.
        apply obj_set_same_twice.
      * rewrite Hk. now rewrite IH.
Qed.

(** X14.  The state the wizard starts from points at the first step that is
    not done: [currentStep] is 0, 1 or 2, the flag of the step at that
    position is [false], and the flag of every step before it is [true].
    Without a GitHub connection that is step 0, even when Vercel is already
    connected. *)
Theorem wizard_starts_at_first_open_step :
  forall (user : option User) (hasGitHubConnection hasVercelConnection : bool),
    (0 <= OnboardingWizard.currentStep
            (OnboardingWizard.initialState user hasGitHubConnection
               hasVercelConnection) <= 2)%Z /\
    obj_get
      (nth (Z.to_nat
              (OnboardingWizard.currentStep
                 (OnboardingWizard.initialState user hasGitHubConnection
                    hasVercelConnection)))
         OnboardingWizard.stepIds "")
      (OnboardingWizard.steps
         (OnboardingWizard.initialState user hasGitHubConnection
            hasVercelConnection)) = Some false /\
    (forall k,
       k < Z.to_nat
             (OnboardingWizard.currentStep
                (OnboardingWizard.initialState user hasGitHubConnection
                   hasVercelConnection)) ->
       obj_get (nth k OnboardingWizard.stepIds "")
         (OnboardingWizard.steps
            (OnboardingWizard.initialState user hasGitHubConnection
               hasVercelConnection)) = Some true) /\
    (hasGitHubConnection = false ->
     OnboardingWizard.currentStep
       (OnboardingWizard.initialState user hasGitHubConnection
          hasVercelConnection) = 0%Z).
Proof.
  intros user g v. unfold OnboardingWizard.initialState.
  destruct g, (OnboardingWizard.hasVercelConnectionAttempt user v); simpl;
    (split; [lia|]); (split; [reflexivity|]);
    (split; [|congruence]); intros k Hk.
  - destruct k as [|[|k]]; [reflexivity | reflexivity | ].
    change (Pos.to_nat 2) with 2 in Hk. lia.
  - destruct k as [|k]; [reflexivity|].
    change (Pos.to_nat 1) with 1 in Hk. lia.
  - lia.
  - lia.
Qed.

Lemma stepKey_cases (index : Z) :
  ((index <= 0)%Z /\ OnboardingWizard.stepKey index = "github") \/
  (index = 1%Z /\ OnboardingWizard.stepKey index = "vercel") \/
  ((2 <= index)%Z /\ OnboardingWizard.stepKey index = "deploy").
Proof.
  unfold OnboardingWizard.stepKey. simpl List.length.
  change (Z.of_nat 3 - 1)%Z with 2%Z.
  destruct (Z.le_gt_cases index 0) as [Hneg|Hpos].
  - left. split; [exact Hneg|].
    replace (Z.max 0 (Z.min 2 index)) with 0%Z by lia. reflexivity.
  - destruct (Z.le_gt_cases 2 index) as [Hbig|Hsmall].
    + right. right. split; [exact Hbig|].
      replace (Z.max 0 (Z.min 2 index)) with 2%Z by lia. reflexivity.
    + right. left. assert (index = 1%Z) as -> by lia.
      split; reflexivity.
Qed.

(** X15.  [onStepChange] with an integer index marks exactly one step as
    done, the one at the index clamped to the three steps ([github] for an
    index of 0 or less, [deploy] for 2 or more), and never the empty key;
    every other flag and [completed] stay as they were.  [currentStep] is
    set to the index as given, not clamped. *)
Theorem onStepChange_marks_the_clamped_step :
  forall (index : Z) (st : OnboardingWizard.OnboardingState),
    In (OnboardingWizard.stepKey index) OnboardingWizard.stepIds /\
    ((index <= 0)%Z -> OnboardingWizard.stepKey index = "github") /\
    ((2 <= index)%Z -> OnboardingWizard.stepKey index = "deploy") /\
    obj_get (OnboardingWizard.stepKey index)
      (OnboardingWizard.steps (OnboardingWizard.onStepChange index st))
      = Some true /\
    (forall k,
       k <> OnboardingWizard.stepKey index ->
       obj_get k
         (OnboardingWizard.steps (OnboardingWizard.onStepChange index st))
       = obj_get k (OnboardingWizard.steps st)) /\
    OnboardingWizard.currentStep (OnboardingWizard.onStepChange index st)
      = index /\
    OnboardingWizard.completed (OnboardingWizard.onStepChange index st)
      = OnboardingWizard.completed st.
Proof.
  intros index st.
  split; [|split; [|split; [|split; [|split; [|split]]]]].
  - destruct (stepKey_cases index) as [[_ ->]|[[_ ->]|[_ ->]]]; simpl; auto.
  - intro H. destruct (stepKey_cases index) as [[_ ->]|[[? _]|[? _]]];
      [reflexivity | lia | lia].
  - intro H. destruct (stepKey_cases index) as [[? _]|[[? _]|[_ ->]]];
      [lia | lia | reflexivity].
  - apply obj_get_set_same.
  - intros k Hk. now apply obj_get_set_other.
  - reflexivity.
  - reflexivity.
Qed.

Lemma onStepChange_marks_the_clamped_step_witness :
  OnboardingWizard.stepKey 7 = "deploy" /\
  OnboardingWizard.currentStep
    (OnboardingWizard.onStepChange 7
       (OnboardingWizard.initialState None true false)) = 7%Z /\
  obj_get "vercel"
    (OnboardingWizard.steps
       (OnboardingWizard.onStepChange 7
          (OnboardingWizard.initialState None true false)))
  = Some false.
Proof.
  destruct (onStepChange_marks_the_clamped_step 7
              (OnboardingWizard.initialState None true false))
    as [_ [_ [Hbig [_ [Hother [Hcurrent _]]]]]].
  split; [exact (Hbig ltac:(lia))|]. split; [exact Hcurrent|].
  rewrite (Hother "vercel") by (rewrite (Hbig ltac:(lia)); discriminate).
  reflexivity.
Defined.

(** X16.  After any sequence of wizard events the stored state is
    [completed] exactly when it was before or the sequence holds a
    [Complete] or a [Skip]: nothing else ends the wizard and nothing reopens
    it.  A completed wizard is not shown, and neither is one without a
    user. *)
Theorem wizard_completed_is_final :
  forall (siteTitle : string) (onComplete : bool)
         (events : list OnboardingWizard.Event)
         (st : OnboardingWizard.OnboardingState) (user : option User),
    OnboardingWizard.completed
      (OnboardingWizard.updates siteTitle onComplete events st)
    = OnboardingWizard.completed st
      || existsb
           (fun e =>
              match e with
              | OnboardingWizard.Complete | OnboardingWizard.Skip => true
              | _ => false
              end)
           events /\
    OnboardingWizard.shown user
      (OnboardingWizard.updates siteTitle onComplete events st)
    = match user with
      | Some _ =>
          negb (OnboardingWizard.completed st) &&
          negb (existsb
                  (fun e =>
                     match e with
                     | OnboardingWizard.Complete | OnboardingWizard.Skip =>
                         true
                     | _ => false
                     end)
                  events)
      | None => false
      end.
Proof.
  intros siteTitle onComplete events st user.
  assert (Hcompleted :
            OnboardingWizard.completed
              (OnboardingWizard.updates siteTitle onComplete events st)
            = OnboardingWizard.completed st
              || existsb
                   (fun e =>
                      match e with
                      | OnboardingWizard.Complete | OnboardingWizard.Skip =>
                          true
                      | _ => false
                      end)
                   events).
  { unfold OnboardingWizard.updates. revert st.
    induction events as [|e events IH]; intro st; simpl.
    - now rewrite orb_false_r.
    - rewrite IH. destruct e; simpl;
        try reflexivity; now rewrite ?orb_true_r. }
  split; [exact Hcompleted|].
  unfold OnboardingWizard.shown. rewrite Hcompleted.
  destruct user; [apply negb_orb | reflexivity].
Qed.

(** X17.  The effect that keeps the connection flags in sync overwrites the
    [github] and [vercel] flags with the connection state, also when a
    visit had marked them done; it leaves every other flag, [currentStep]
    and [completed] alone, and running it again with the same connection
    state changes nothing. *)
Theorem syncConnections_overwrites_connection_flags :
  forall (g a : bool) (st : OnboardingWizard.OnboardingState),
    obj_get "github"
      (OnboardingWizard.steps (OnboardingWizard.syncConnections g a st))
      = Some g /\
    obj_get "vercel"
      (OnboardingWizard.steps (OnboardingWizard.syncConnections g a st))
      = Some a /\
    (forall k,
       k <> "github" -> k <> "vercel" ->
       obj_get k
         (OnboardingWizard.steps (OnboardingWizard.syncConnections g a st))
       = obj_get k (OnboardingWizard.steps st)) /\
    OnboardingWizard.currentStep (OnboardingWizard.syncConnections g a st)
      = OnboardingWizard.currentStep st /\
    OnboardingWizard.completed (OnboardingWizard.syncConnections g a st)
      = OnboardingWizard.completed st /\
    OnboardingWizard.syncConnections g a
      (OnboardingWizard.syncConnections g a st)
      = OnboardingWizard.syncConnections g a st.
Proof.
  intros g a st. unfold OnboardingWizard.syncConnections. simpl.
  split; [|split; [|split; [|split; [|split]]]].
  - rewrite obj_get_set_other by discriminate. apply obj_get_set_same.
  - apply obj_get_set_same.
  - intros k Hg Hv. now rewrite !obj_get_set_other.
  - reflexivity.
  - reflexivity.
  - f_equal.
    rewrite (obj_set_again_after_other "github" "vercel")
      by discriminate.
    apply obj_set_same_twice.
Qed.

Lemma syncConnections_overwrites_connection_flags_witness :
  obj_get "github"
    (OnboardingWizard.steps
       (OnboardingWizard.syncConnections false false
          (OnboardingWizard.onStepChange 0
             (OnboardingWizard.initialState None false false))))
  = Some false /\
  obj_get "deploy"
    (OnboardingWizard.steps
       (OnboardingWizard.syncConnections false false
          (OnboardingWizard.onStepChange 0
             (OnboardingWizard.initialState None false false))))
  = Some false.
Proof.
  destruct (syncConnections_overwrites_connection_flags false false
              (OnboardingWizard.onStepChange 0
                 (OnboardingWizard.initialState None false false)))
    as [Hgithub [_ [Hother _]]].
  split; [exact Hgithub|].
  rewrite (Hother "deploy") by discriminate. reflexivity.
Defined.

Lemma wizard_starts_at_first_open_step_witness :
  OnboardingWizard.currentStep
    (OnboardingWizard.initialState None false true) = 0%Z /\
  obj_get "github"
    (OnboardingWizard.steps (OnboardingWizard.initialState None true false))
  = Some true.
Proof.
  split.
  - exact (proj2 (proj2 (proj2 (wizard_starts_at_first_open_step
                                  None false true))) eq_refl).
  - exact (proj1 (proj2 (proj2 (wizard_starts_at_first_open_step
                                  None true false)))
             0 ltac:(simpl; lia)).
Defined.

(* ================================================================== *)
(** ** The Vercel connect button *)

Lemma concat_empty_cons (x : string) (xs : list string) :
  String.concat "" (x :: xs) = x ++ String.concat "" xs.
Proof.
  destruct xs as [|y ys]; simpl; [|reflexivity].
  induction x as [|c x IH]; simpl; [reflexivity | now rewrite <- IH].
Qed.

Lemma byte_hex_round_trip (b : Byte.byte) :
  VercelConnectButton.byte_of_hex
    (VercelConnectButton.padStart 2 "0"%char
       (VercelConnectButton.toString16 b)) = Some b.
Proof. destruct b; reflexivity. Qed.

Lemma byte_hex_shape (b : Byte.byte) :
  exists h l,
    VercelConnectButton.padStart 2 "0"%char
      (VercelConnectButton.toString16 b) = String h (String l "") /\
    VercelConnectButton.is_hex_lower h = true /\
    VercelConnectButton.is_hex_lower l = true.
Proof. destruct b; do 2 eexists; repeat split. Qed.

Lemma csrf_state_cons (b : Byte.byte) (random : list Byte.byte) :
  VercelConnectButton.csrf_state (b :: random)
  = VercelConnectButton.padStart 2 "0"%char
      (VercelConnectButton.toString16 b)
      ++ VercelConnectButton.csrf_state random.
Proof. unfold VercelConnectButton.csrf_state. simpl map.
  apply concat_empty_cons. Qed.

Lemma csrf_state_length (random : list Byte.byte) :
  String.length (VercelConnectButton.csrf_state random)
  = 2 * List.length random.
Proof.
  induction random as [|b random IH]; [reflexivity|].
  rewrite csrf_state_cons.
  destruct (byte_hex_shape b) as [h [l [-> _]]].
  simpl. rewrite IH. lia.
Qed.

Lemma csrf_state_hex (random : list Byte.byte) :
  forallb VercelConnectButton.is_hex_lower
    (list_ascii_of_string (VercelConnectButton.csrf_state random)) = true.
Proof.
  induction random as [|b random IH]; [reflexivity|].
  rewrite csrf_state_cons.
  destruct (byte_hex_shape b) as [h [l [-> [Hh Hl]]]].
  simpl. now rewrite Hh, Hl.
Qed.

(** X18.  The CSRF state is two lower-case hexadecimal digits per random
    byte, so 32 characters for the 16 bytes the button draws, and the bytes
    can be read back from it: different random bytes never give the same
    state. *)
Theorem csrf_state_is_hex_of_the_random_bytes :
  forall (random : list Byte.byte),
    String.length (VercelConnectButton.csrf_state random)
      = 2 * List.length random /\
    forallb VercelConnectButton.is_hex_lower
      (list_ascii_of_string (VercelConnectButton.csrf_state random)) = true /\
    (List.length random = 16 ->
     String.length (VercelConnectButton.csrf_state random) = 32) /\
    (forall random',
       VercelConnectButton.csrf_state random
         = VercelConnectButton.csrf_state random' ->
       random = random').
Proof.
  intro random.
  split; [apply csrf_state_length|]. split; [apply csrf_state_hex|]. split.
  - intro H16. rewrite csrf_state_length, H16. reflexivity.
  - induction random as [|b random IH]; intros random' Heq.
    + destruct random' as [|b' random']; [reflexivity|].
      rewrite csrf_state_cons in Heq.
      destruct (byte_hex_shape b') as [h' [l' [Hb' _]]].
      rewrite Hb' in Heq. discriminate.
    + destruct random' as [|b' random'].
      * rewrite csrf_state_cons in Heq.
        destruct (byte_hex_shape b) as [h [l [Hb _]]].
        rewrite Hb in Heq. discriminate.
      * rewrite !csrf_state_cons in Heq.
        pose proof (byte_hex_round_trip b) as Hrb.
        pose proof (byte_hex_round_trip b') as Hrb'.
        destruct (byte_hex_shape b) as [h [l [Hb _]]].
        destruct (byte_hex_shape b') as [h' [l' [Hb' _]]].
        rewrite Hb in Heq, Hrb. rewrite Hb' in Heq, Hrb'.
        simpl in Heq. injection Heq as Hh Hl Hrest.
        subst h' l'. f_equal; [congruence | now apply IH].
Qed.

Lemma csrf_state_is_hex_of_the_random_bytes_witness :
  String.length
    (VercelConnectButton.csrf_state VercelConnectButton.sample_random) = 32.
Proof.
  exact (proj1 (proj2 (proj2 (csrf_state_is_hex_of_the_random_bytes
                                VercelConnectButton.sample_random)))
           eq_refl).
Defined.

Lemma percent_shape (c : ascii) :
  exists h l,
    VercelConnectButton.percent c = String "%" (String h (String l "")) /\
    VercelConnectButton.uri_unreserved h = true /\
    VercelConnectButton.uri_unreserved l = true /\
    VercelConnectButton.HEX_VALUE h = Some (nat_of_ascii c / 16) /\
    VercelConnectButton.HEX_VALUE l = Some (nat_of_ascii c mod 16).
Proof.
  destruct c as [[] [] [] [] [] [] [] []]; do 2 eexists; repeat split.
Qed.

Lemma unreserved_not_percent (c : ascii) :
  VercelConnectButton.uri_unreserved c = true -> Ascii.eqb c "%" = false.
Proof.
  intro H. destruct (Ascii.eqb_spec c "%"%char) as [->|]; [|reflexivity].
  discriminate.
Qed.

Lemma percent_decode_encode (s : string) (fuel : nat) :
  String.length (VercelConnectButton.encodeURIComponent s) <= fuel ->
  VercelConnectButton.percent_decode fuel
    (VercelConnectButton.encodeURIComponent s) = Some s.
Proof.
  revert fuel. induction s as [|c s IH]; intros fuel Hfuel.
  - destruct fuel; reflexivity.
  - simpl VercelConnectButton.encodeURIComponent in *.
    destruct (VercelConnectButton.uri_unreserved c) eqn:Hc.
    + simpl in Hfuel. destruct fuel as [|fuel]; [lia|].
      simpl. rewrite (unreserved_not_percent c Hc).
      rewrite IH by lia. reflexivity.
    + destruct (percent_shape c) as [h [l [Hp [_ [_ [Hh Hl]]]]]].
      rewrite Hp in *. simpl in Hfuel.
      destruct fuel as [|fuel]; [lia|].
      simpl. rewrite Hh, Hl, IH by lia.
      match goal with
      | |- Some (String (ascii_of_nat ?x) _) = _ =>
          replace x with (nat_of_ascii c)
            by (pose proof (Nat.div_mod_eq (nat_of_ascii c) 16); lia)
      end.
      now rewrite ascii_nat_embedding.
Qed.

Lemma occurrences_app (c : ascii) (a b : string) :
  VercelConnectButton.occurrences c (a ++ b)
  = VercelConnectButton.occurrences c a + VercelConnectButton.occurrences c b.
Proof.
  induction a as [|x a IH]; simpl; [reflexivity|]. rewrite IH. lia.
Qed.

Lemma occurrences_none (P : ascii -> bool) (c : ascii) (s : string) :
  forallb P (list_ascii_of_string s) = true -> P c = false ->
  VercelConnectButton.occurrences c s = 0.
Proof.
  intros Hall Hc. induction s as [|x s IH]; simpl in *; [reflexivity|].
  apply andb_true_iff in Hall. destruct Hall as [Hx Hs].
  destruct (Ascii.eqb_spec x c) as [->|_]; [congruence|].
  now apply IH.
Qed.

Lemma encodeURIComponent_chars (s : string) :
  forallb (fun c => VercelConnectButton.uri_unreserved c || Ascii.eqb c "%")
    (list_ascii_of_string (VercelConnectButton.encodeURIComponent s)) = true.
Proof.
  induction s as [|c s IH]; [reflexivity|].
  simpl VercelConnectButton.encodeURIComponent.
  destruct (VercelConnectButton.uri_unreserved c) eqn:Hc.
  - simpl. now rewrite Hc, IH.
  - destruct (percent_shape c) as [h [l [-> [Hh [Hl _]]]]].
    simpl. now rewrite Hh, Hl, IH.
Qed.

(** X19.  The address the browser is sent to ends, after the [?], in
    exactly two parameters, [state] and [redirect_uri], whatever the random
    bytes and the origin are: the query holds one [&], two [=] and no [#].
    Percent-decoding the [redirect_uri] value gives back the callback
    address, the origin followed by [/connect/vercel/auth]. *)
Theorem link_query_has_state_and_redirect_uri :
  forall (client_slug origin : string) (random : list Byte.byte),
    exists query encoded,
      VercelConnectButton.link client_slug
        (VercelConnectButton.csrf_state random)
        (VercelConnectButton.redirectUri origin)
      = "https://vercel.com/integrations/" ++ client_slug ++ "/new?" ++ query
      /\
      query = "state=" ++ VercelConnectButton.csrf_state random
                ++ "&redirect_uri=" ++ encoded /\
      VercelConnectButton.occurrences "&" query = 1 /\
      VercelConnectButton.occurrences "=" query = 2 /\
      VercelConnectButton.occurrences "#" query = 0 /\
      VercelConnectButton.decodeURIComponent encoded
      = Some (origin ++ "/connect/vercel/auth").
Proof.
  intros client_slug origin random.
  exists ("state=" ++ VercelConnectButton.csrf_state random
            ++ "&redirect_uri="
            ++ VercelConnectButton.encodeURIComponent
                 (VercelConnectButton.redirectUri origin)).
  exists (VercelConnectButton.encodeURIComponent
            (VercelConnectButton.redirectUri origin)).
  pose proof (csrf_state_hex random) as Hhex.
  pose proof (encodeURIComponent_chars
                (VercelConnectButton.redirectUri origin)) as Henc.
  assert (Hcount :
            forall c,
              VercelConnectButton.is_hex_lower c = false ->
              VercelConnectButton.uri_unreserved c || Ascii.eqb c "%" = false ->
              VercelConnectButton.occurrences c
                (VercelConnectButton.csrf_state random) = 0 /\
              VercelConnectButton.occurrences c
                (VercelConnectButton.encodeURIComponent
                   (VercelConnectButton.redirectUri origin)) = 0).
  { intros c H1 H2. split.
    - exact (occurrences_none _ c _ Hhex H1).
    - exact (occurrences_none _ c _ Henc H2). }
  split.
  { reflexivity. }
  split; [reflexivity|].
  split; [|split; [|split]].
  - destruct (Hcount "&"%char eq_refl eq_refl) as [H1 H2].
    rewrite !occurrences_app, H1, H2. reflexivity.
  - destruct (Hcount "="%char eq_refl eq_refl) as [H1 H2].
    rewrite !occurrences_app, H1, H2. reflexivity.
  - destruct (Hcount "#"%char eq_refl eq_refl) as [H1 H2].
    rewrite !occurrences_app, H1, H2. reflexivity.
  - unfold VercelConnectButton.decodeURIComponent.
    now apply percent_decode_encode.
Qed.

(** X20.  [handleConnect] first records the attempt.  When recording
    throws, no cookie is written and the browser is not sent anywhere: the
    user sees one error toast with the error's message and the button stops
    loading.  When recording succeeds, one cookie is written and the browser
    is sent to one address, both carrying the same state of lower-case
    hexadecimal digits, two per random byte; the button keeps loading and
    no toast is shown. *)
Theorem handleConnect_writes_one_state_or_nothing :
  forall (client_slug origin : string) (marked : Completion unit)
         (random : list Byte.byte) (p : VercelConnectButton.Page),
    VercelConnectButton.attempts
      (VercelConnectButton.handleConnect client_slug origin marked random p)
      = S (VercelConnectButton.attempts p) /\
    match marked with
    | Return _ =>
        VercelConnectButton.isLoading
          (VercelConnectButton.handleConnect client_slug origin marked random
             p) = true /\
        VercelConnectButton.toasts
          (VercelConnectButton.handleConnect client_slug origin marked random
             p) = VercelConnectButton.toasts p /\
        exists state,
          String.length state = 2 * List.length random /\
          forallb VercelConnectButton.is_hex_lower
            (list_ascii_of_string state) = true /\
          VercelConnectButton.cookies
            (VercelConnectButton.handleConnect client_slug origin marked
               random p)
          = (VercelConnectButton.cookies p
               ++ [VercelConnectButton.oauth_cookie state])%list /\
          VercelConnectButton.visited
            (VercelConnectButton.handleConnect client_slug origin marked
               random p)
          = (VercelConnectButton.visited p
               ++ [VercelConnectButton.link client_slug state
                     (VercelConnectButton.redirectUri origin)])%list
    | Throw error =>
        VercelConnectButton.isLoading
          (VercelConnectButton.handleConnect client_slug origin marked random
             p) = false /\
        VercelConnectButton.cookies
          (VercelConnectButton.handleConnect client_slug origin marked random
             p) = VercelConnectButton.cookies p /\
        VercelConnectButton.visited
          (VercelConnectButton.handleConnect client_slug origin marked random
             p) = VercelConnectButton.visited p /\
        VercelConnectButton.toasts
          (VercelConnectButton.handleConnect client_slug origin marked random
             p)
        = (VercelConnectButton.toasts p
             ++ [VercelConnectButton.LegacyToast "Error"
                   (message_or error "Failed to connect to Vercel")
                   "destructive"])%list
    end.
Proof.
  intros client_slug origin marked random p.
  destruct marked as [[]|error]; simpl.
  - split; [reflexivity|]. split; [reflexivity|]. split; [reflexivity|].
    exists (VercelConnectButton.csrf_state random).
    split; [apply csrf_state_length|]. split; [apply csrf_state_hex|].
    split; reflexivity.
  - repeat split.
Qed.

(** X21.  [handleDisconnect] created by a render that saw the button
    loading does nothing at all.  Otherwise it calls [disconnectAccount]
    once, shows the user at least one toast, refreshes the session exactly
    when the answer says [success], writes no cookie, sends the browser
    nowhere, and always ends with the button not loading, whether the calls
    answer, refuse or throw. *)
Theorem handleDisconnect_always_stops_loading :
  forall (seen : bool) (answered : Completion VercelConnectButton.DisconnectResult)
         (refreshed : Completion unit) (p : VercelConnectButton.Page),
    (seen = true ->
     VercelConnectButton.handleDisconnect seen answered refreshed p = p) /\
    (seen = false ->
     VercelConnectButton.isLoading
       (VercelConnectButton.handleDisconnect seen answered refreshed p)
       = false /\
     VercelConnectButton.disconnects
       (VercelConnectButton.handleDisconnect seen answered refreshed p)
       = (VercelConnectButton.disconnects p ++ ["vercel"])%list /\
     List.length (VercelConnectButton.toasts p)
       < List.length
           (VercelConnectButton.toasts
              (VercelConnectButton.handleDisconnect seen answered refreshed
                 p)) /\
     VercelConnectButton.sessionUpdates
       (VercelConnectButton.handleDisconnect seen answered refreshed p)
       = (match answered with
          | Return result =>
              if VercelConnectButton.d_success result then 1 else 0
          | Throw _ => 0
          end) + VercelConnectButton.sessionUpdates p /\
     VercelConnectButton.cookies
       (VercelConnectButton.handleDisconnect seen answered refreshed p)
       = VercelConnectButton.cookies p /\
     VercelConnectButton.visited
       (VercelConnectButton.handleDisconnect seen answered refreshed p)
       = VercelConnectButton.visited p).
Proof.
  intros seen answered refreshed p. split; intros ->; [reflexivity|].
  unfold VercelConnectButton.handleDisconnect.
  destruct answered as [result|error]; simpl.
  - destruct (VercelConnectButton.d_success result); simpl.
    + destruct refreshed as [[]|error]; simpl;
        repeat split; rewrite ?length_app; simpl; lia.
    + repeat split. rewrite length_app. simpl. lia.
  - repeat split. rewrite length_app. simpl. lia.
Qed.

Lemma handleDisconnect_always_stops_loading_witness :
  VercelConnectButton.handleDisconnect true (Throw JsOther) (Return tt)
    VercelConnectButton.fresh_page = VercelConnectButton.fresh_page /\
  VercelConnectButton.isLoading
    (VercelConnectButton.handleDisconnect false (Throw JsOther) (Return tt)
       VercelConnectButton.fresh_page) = false.
Proof.
  split.
  - exact (proj1 (handleDisconnect_always_stops_loading true (Throw JsOther)
                    (Return tt) VercelConnectButton.fresh_page) eq_refl).
  - exact (proj1 (proj2 (handleDisconnect_always_stops_loading false
                           (Throw JsOther) (Return tt)
                           VercelConnectButton.fresh_page) eq_refl)).
Defined.

(** X22.  The wizard's local-storage key tells users apart: two users share
    a key exactly when they have the same id, and a signed-in user shares
    the key of the signed-out wizard exactly when the id is the text
    [guest]. *)
Theorem storageKey_is_per_user :
  forall (u1 u2 : User),
    (OnboardingWizard.storageKey (Some u1)
       = OnboardingWizard.storageKey (Some u2)
     <-> user_id u1 = user_id u2) /\
    (OnboardingWizard.storageKey (Some u1) = OnboardingWizard.storageKey None
     <-> user_id u1 = "guest").
Proof.
  intros u1 u2. unfold OnboardingWizard.storageKey. simpl.
  split; split; intro H; try (now rewrite H); now injection H.
Qed.

Lemma storageKey_is_per_user_witness :
  OnboardingWizard.storageKey (Some (mkUser "guest" None None))
  = OnboardingWizard.storageKey None.
Proof.
  exact (proj2 (proj2 (storageKey_is_per_user (mkUser "guest" None None)
                         (mkUser "guest" None None))) eq_refl).
Defined.
